(** * Classifier: the frame-processing pipeline of [classifier.py]

    A shallow embedding of [Dispatcher] (src/classifier.py) and of the
    boundary configuration module (src/config/__init__.py).

    Conventions of the embedding.
    - Python [int] is [Z]; the counter [times_index], which starts at 0 and
      is only ever incremented, is a [nat].
    - Python [float] is idealised as a rational ([Q]); the conversion to
      single precision performed by a store into the ['f'] buffer is kept
      as a function of the environment.
    - Python [str] is [string]; a character is its code point (below 256).
    - OpenCV, NumPy, the clock and the keyboard are an environment record
      [Env] (pure oracles) and a [World] (what changes as the program runs:
      clock reads, pending key presses, and the trace of external calls).
    - A method of [Dispatcher] is a computation in the monad [M]: it takes
      the object and the world, and returns a result or a raised exception
      together with the object and the world as they are at that point. *)

From Stdlib Require Import ZArith QArith Lia Bool Ascii.
From stdpp Require Import base list strings.

#[local] Open Scope Z_scope.

(** ** Python values *)

Inductive exn : Type :=
| TypeError
| IndexError
| ZeroDivisionError
| ValueError
| UnboundLocalError
| KeyError
| SystemExit (code : Z).

Inductive Res (A : Type) : Type :=
| Ok (a : A)
| Raise (e : exn).
Arguments Ok {A} a.
Arguments Raise {A} e.

(** A string is the sequence of its code points, each below 256: text
    outside Latin-1 is not represented.

    [str.isnumeric]: every character has the Unicode numeric property and
    the string is not empty.  Below code point 256 the numeric characters
    are the ten digits, the superscripts (178, 179, 185) and the vulgar
    fractions (188, 189, 190). *)
Definition is_ascii_digit (c : ascii) : bool :=
  let n := Z.of_N (N_of_ascii c) in (48 <=? n) && (n <=? 57).

Definition char_isnumeric (c : ascii) : bool :=
  let n := Z.of_N (N_of_ascii c) in
  is_ascii_digit c
  || (n =? 178) || (n =? 179) || (n =? 185)
  || (n =? 188) || (n =? 189) || (n =? 190).

Fixpoint all_chars (p : ascii -> bool) (s : string) : bool :=
  match s with
  | EmptyString => true
  | String c s' => p c && all_chars p s'
  end.

Definition isnumeric (s : string) : bool :=
  match s with
  | EmptyString => false
  | _ => all_chars char_isnumeric s
  end.

(** [str.isnumeric(x)] called on the class: [TypeError] when [x] is [None]. *)
Definition str_isnumeric (x : option string) : Res bool :=
  match x with
  | None => Raise TypeError
  | Some s => Ok (isnumeric s)
  end.

Fixpoint digits_value (acc : Z) (s : string) : Z :=
  match s with
  | EmptyString => acc
  | String c s' => digits_value (10 * acc + (Z.of_N (N_of_ascii c) - 48)) s'
  end.

(** [int(s)] on a string that passed [isnumeric]: decimal digits convert,
    a superscript or a fraction raises [ValueError], and so does a text of
    more than 4300 digits, leading zeros counted (the interpreter's limit
    on the conversion of a string to an integer). *)
Definition py_int (s : string) : Res Z :=
  match s with
  | EmptyString => Raise ValueError
  | _ => if all_chars is_ascii_digit s
         then if (4300 <? String.length s)%nat then Raise ValueError
              else Ok (digits_value 0 s)
         else Raise ValueError
  end.

(** [int(x)] on a float: truncation toward zero. *)
Definition int_of_float (q : Q) : Z := Z.quot (Qnum q) (Zpos (Qden q)).

(** [a / b] on two ints: true division, [ZeroDivisionError] on [b = 0]. *)
Definition py_truediv (a b : Z) : Res Q :=
  if b =? 0 then Raise ZeroDivisionError
  else Ok (inject_Z a / inject_Z b)%Q.

(** Truth value of an optional string: [None] and [''] are false. *)
Definition truthy (x : option string) : bool :=
  match x with
  | None => false
  | Some EmptyString => false
  | Some _ => true
  end.

(** [len(set(t))] for a pair [t]. *)
Definition len_set_pair (t : Z * Z) : nat :=
  length (remove_dups [t.1; t.2]).

(** ** The data model *)

Inductive Shape : Type := RECTANGLE | ELLIPSE.

Definition Color : Type := (Z * Z * Z)%type.

(** Modelled from the spec: [Region] is declared in [cvlib], which is not
    part of the sources.  Its fields follow the spec's data model
    ([x, y, width, height: real; color; shape]) and the order of the
    positional arguments at the two construction sites in [detect]. *)
Record Region : Type := mkRegion {
  region_x : Q;
  region_y : Q;
  region_w : Q;
  region_h : Q;
  region_color : Color;
  region_shape : Shape
}.

(** A frame: [shape[0]] rows, [shape[1]] columns, and its pixels. *)
Record Frame : Type := mkFrame {
  shape0 : Z;
  shape1 : Z;
  pixels : list Z
}.

(** Modelled from the spec: [Display] is declared in [cvlib]; the only part
    of it that [Dispatcher] reads is [size], the working resolution
    (width, height). *)
Record Display : Type := mkDisplay {
  size : Z * Z
}.

(** A loaded cascade: the file it was loaded from and its native detection
    window, as [getOriginalWindowSize] returns it. *)
Record CascadeClassifier : Type := mkCascade {
  model_file : string;
  original_window_size : Z * Z
}.

(** A detection rectangle [(x, y, w, h)] in working space. *)
Definition Rect : Type := (Z * Z * Z * Z)%type.

Inductive CapArg : Type :=
| CamIndex (i : Z)
| FileName (s : string).

(** What [cv.VideoCapture] hands back: whether it opened, the value of
    [CAP_PROP_FRAME_COUNT], and the frames [read] will deliver before it
    returns no frame. *)
Record Capture : Type := mkCapture {
  cap_opened : bool;
  cap_frame_count : Q;
  cap_frames : list Frame
}.

Inductive Level : Type := INFO | ERROR.

Inductive LogMsg : Type :=
| FrameTime (elapsed : Q)
| CantOpen
| AverageTime (avg : option Q)
| MaxTime (t : Q)
| MinTime (t : Q).

(** The calls the program makes to the outside, in the order it makes them. *)
Inductive Event : Type :=
| EvImread (path : string)
| EvCvtColor (f : Frame)
| EvSetOrientation (f : Frame)
| EvResize (dsize : Z * Z)
| EvEqualizeHist
| EvDetectMultiScale (m : CascadeClassifier)
| EvShow (f : Frame) (regions : list Region)
         (frame_processed : option Frame)
         (regions_processed : option (list Region))
| EvWaitKey (delay : Z)
| EvVideoCapture (arg : CapArg)
| EvCapRead
| EvLog (lvl : Level) (msg : LogMsg).

(** The value of the module-level name [config_boundarys] of
    [config/__init__.py]: the empty tuple, or for each kind of object the
    minimum and the maximum as (width, height) pairs. *)
Inductive Boundaries : Type :=
| NoBoundaries                        (* the empty tuple *)
| MinMax (face_min face_max body_min body_max : Z * Z).

(** What the code of the process can reach outside the dispatcher: the
    collaborators it calls, and the boundaries that the configuration
    module holds for whoever imports it. *)
Record Env : Type := mkEnv {
  now : nat -> Q;                       (* n-th reading of [time.time()] *)
  imread : string -> Frame;
  cvtColor : Frame -> Frame;            (* COLOR_BGR2GRAY *)
  resize : Frame -> Z * Z -> Frame;     (* INTER_AREA *)
  equalizeHist : Frame -> Frame;
  detectMultiScale : CascadeClassifier -> Frame -> list Rect;
  load_cascade : string -> CascadeClassifier;
  VideoCapture : CapArg -> Capture;
  garbage : nat -> Q;                   (* content left by [np.empty] *)
  float32 : Q -> Q;                     (* store into a ['f'] array *)
  new_display : Display;                (* [Display()] *)
  set_orientation : Frame -> Display -> Display;
  random_colors : nat -> list Color;
  model_path : string -> string;        (* path of a model under cv2/data *)
  boundaries : Boundaries               (* [config.config_boundarys] *)
}.

(** The same collaborators beside another boundary configuration. *)
Definition set_boundaries (b : Boundaries) (env : Env) : Env :=
  mkEnv (now env) (imread env) (cvtColor env) (resize env) (equalizeHist env)
        (detectMultiScale env) (load_cascade env) (VideoCapture env)
        (garbage env) (float32 env) (new_display env) (set_orientation env)
        (random_colors env) (model_path env) b.

Record World : Type := mkWorld {
  clock : nat;          (* number of clock readings taken so far *)
  keys : list Z;        (* key presses still to come *)
  trace : list Event    (* external calls so far, oldest first *)
}.

Record Dispatcher : Type := mkDispatcher {
  models_cascade : list CascadeClassifier;
  video_source : option string;
  image : option string;
  start_time_int : option Q;
  times : option (list Q);
  times_index : nat;
  is_first_frame : bool;
  colors : list Color;
  display : Display
}.

Definition set_start_time_int (v : option Q) (d : Dispatcher) : Dispatcher :=
  mkDispatcher (models_cascade d) (video_source d) (image d) v (times d)
               (times_index d) (is_first_frame d) (colors d) (display d).

Definition set_times (v : option (list Q)) (d : Dispatcher) : Dispatcher :=
  mkDispatcher (models_cascade d) (video_source d) (image d)
               (start_time_int d) v (times_index d) (is_first_frame d)
               (colors d) (display d).

Definition set_times_index (v : nat) (d : Dispatcher) : Dispatcher :=
  mkDispatcher (models_cascade d) (video_source d) (image d)
               (start_time_int d) (times d) v (is_first_frame d)
               (colors d) (display d).

Definition set_is_first_frame (v : bool) (d : Dispatcher) : Dispatcher :=
  mkDispatcher (models_cascade d) (video_source d) (image d)
               (start_time_int d) (times d) (times_index d) v
               (colors d) (display d).

Definition set_display (v : Display) (d : Dispatcher) : Dispatcher :=
  mkDispatcher (models_cascade d) (video_source d) (image d)
               (start_time_int d) (times d) (times_index d)
               (is_first_frame d) (colors d) v.

(** ** The monad of methods *)

Definition M (A : Type) : Type :=
  Dispatcher -> World -> Res A * Dispatcher * World.

Definition ret {A} (a : A) : M A := fun d w => (Ok a, d, w).

Definition raise {A} (e : exn) : M A := fun d w => (Raise e, d, w).

Definition bind {A B} (m : M A) (k : A -> M B) : M B :=
  fun d w =>
    match m d w with
    | (Ok a, d', w') => k a d' w'
    | (Raise e, d', w') => (Raise e, d', w')
    end.

Notation "'let*' x ':=' m 'in' k" := (bind m (fun x => k))
  (at level 10, x name, m at level 200, k at level 200).
Notation "m '>>' k" := (bind m (fun _ => k))
  (at level 100, k at level 200, right associativity).

Definition lift {A} (r : Res A) : M A := fun d w => (r, d, w).

Definition gets {A} (f : Dispatcher -> A) : M A := fun d w => (Ok (f d), d, w).

Definition modify (f : Dispatcher -> Dispatcher) : M unit :=
  fun d w => (Ok tt, f d, w).

Definition emit (e : Event) : M unit :=
  fun d w => (Ok tt, d, mkWorld (clock w) (keys w) (trace w ++ [e])).

Definition when (b : bool) (m : M unit) : M unit := if b then m else ret tt.

(** The argument of [cv.VideoCapture] in [start]:
    [int(src) if str.isnumeric(src) else src]. *)
Definition capture_arg (src : option string) : Res CapArg :=
  match str_isnumeric src, src with
  | Ok true, Some s => match py_int s with
                       | Ok i => Ok (CamIndex i)
                       | Raise e => Raise e
                       end
  | Ok false, Some s => Ok (FileName s)
  | Ok _, None => Raise TypeError
  | Raise e, _ => Raise e
  end.

(** ** The methods of [Dispatcher] *)

Section Methods.

Variable env : Env.

(** [time.time()] *)
Definition time_time : M Q :=
  fun d w => (Ok (now env (clock w)), d,
              mkWorld (S (clock w)) (keys w) (trace w)).

Definition logging (lvl : Level) (msg : LogMsg) : M unit :=
  emit (EvLog lvl msg).

(** [cv.waitKey(delay)]: the next key press, or -1 when there is none
    (no key within the delay, or no window left to wait on). *)
Definition waitKey (delay : Z) : M Z :=
  fun d w =>
    let tr := trace w ++ [EvWaitKey delay] in
    match keys w with
    | [] => (Ok (-1), d, mkWorld (clock w) [] tr)
    | k :: ks => (Ok k, d, mkWorld (clock w) ks tr)
    end.

(** [t - self.start_time_int]: [TypeError] while the attribute is [None]. *)
Definition elapsed_since (t : Q) (t0 : option Q) : Res Q :=
  match t0 with
  | None => Raise TypeError
  | Some s => Ok (t - s)%Q
  end.

(** [a[i] = v] on the timing buffer: [TypeError] on [None], [IndexError]
    when [i] is not an index of the array. *)
Definition setitem (a : option (list Q)) (i : nat) (v : Q)
  : Res (list Q) :=
  match a with
  | None => Raise TypeError
  | Some l => if bool_decide (i < length l)%nat
              then Ok (<[i := float32 env v]> l)
              else Raise IndexError
  end.

(** [a[:i]] on the timing buffer. *)
Definition slice_to (a : option (list Q)) (i : nat) : Res (list Q) :=
  match a with
  | None => Raise TypeError
  | Some l => Ok (take i l)
  end.

(** [np.empty(n, dtype='f')] *)
Definition np_empty (n : Z) : list Q :=
  map (garbage env) (seq 0 (Z.to_nat n)).

Definition Qsum (l : list Q) : Q := foldr Qplus 0%Q l.

Definition Qmax (a b : Q) : Q := if Qle_bool a b then b else a.
Definition Qmin (a b : Q) : Q := if Qle_bool a b then a else b.

(** [np.average]: not a number on an empty array. *)
Definition np_average (l : list Q) : option Q :=
  match l with
  | [] => None
  | _ => Some (Qsum l / inject_Z (Z.of_nat (length l)))%Q
  end.

(** [np.amax] and [np.amin]: [ValueError] on an empty array. *)
Definition np_amax (l : list Q) : Res Q :=
  match l with
  | [] => Raise ValueError
  | x :: l' => Ok (foldl Qmax x l')
  end.

Definition np_amin (l : list Q) : Res Q :=
  match l with
  | [] => Raise ValueError
  | x :: l' => Ok (foldl Qmin x l')
  end.

Definition __start_time : M unit :=
  let* t := time_time in
  modify (set_start_time_int (Some t)).

Definition __end_time : M unit :=
  let* t1 := time_time in
  let* t0 := gets start_time_int in
  let* e1 := lift (elapsed_since t1 t0) in
  logging INFO (FrameTime e1) >>
  let* src := gets video_source in
  let* numeric := lift (str_isnumeric src) in
  if negb numeric then
    let* t2 := time_time in
    let* t0' := gets start_time_int in
    let* e2 := lift (elapsed_since t2 t0') in
    let* buf := gets times in
    let* i := gets times_index in
    let* buf' := lift (setitem buf i e2) in
    modify (set_times (Some buf')) >>
    let* j := gets times_index in
    modify (set_times_index (j + 1)%nat)
  else ret tt.

Definition preprocess (frame : Frame) : M Frame :=
  emit (EvCvtColor frame) >>
  let frame_gray := cvtColor env frame in
  let* first := gets is_first_frame in
  when first
    (emit (EvSetOrientation frame) >>
     let* dsp := gets display in
     modify (set_display (set_orientation env frame dsp)) >>
     modify (set_is_first_frame false)) >>
  let* dsp := gets display in
  emit (EvResize (size dsp)) >>
  let downscaled_frame_gray := resize env frame_gray (size dsp) in
  emit EvEqualizeHist >>
  ret (equalizeHist env downscaled_frame_gray).

(** The shape chosen for a model at the head of an iteration of the loop
    over the models. *)
Definition model_shape (model_cascade : CascadeClassifier) : Shape :=
  if (len_set_pair (original_window_size model_cascade) =? 1)%nat
  then ELLIPSE else RECTANGLE.

(** The locals of [detect] that the loop over the models updates. *)
Record Locals : Type := mkLocals {
  original_frame_regions_list : list Region;
  processed_frame_regions_list : list Region;
  shape : Shape;
  processed_frame : option Frame
}.

(** [Region(x, y, w, h, color, shape)], in working space. *)
Definition working_region (color : Color) (shp : Shape) (r : Rect) : Region :=
  let '(x, y, w, h) := r in
  mkRegion (inject_Z x) (inject_Z y) (inject_Z w) (inject_Z h) color shp.

(** [Region(x*scale_factor_x, y*scale_factor_y, w*scale_factor_x,
    h*scale_factor_y, color, shape)], in the space of the original frame. *)
Definition original_region (color : Color) (shp : Shape)
    (scale_factor_x scale_factor_y : Q) (r : Rect) : Region :=
  let '(x, y, w, h) := r in
  mkRegion (inject_Z x * scale_factor_x) (inject_Z y * scale_factor_y)
           (inject_Z w * scale_factor_x) (inject_Z h * scale_factor_y)
           color shp.

(** The body of the inner loop, [for (x, y, w, h) in obj_list]: one
    append to each of the two lists. *)
Definition append_regions (color : Color) (shp : Shape)
    (scale_factor_x scale_factor_y : Q)
    (acc : list Region * list Region) (r : Rect)
  : list Region * list Region :=
  (acc.1 ++ [working_region color shp r],
   acc.2 ++ [original_region color shp scale_factor_x scale_factor_y r]).

(** The loop [for model_cascade, color in zip(...)] of [detect]. *)
Fixpoint detect_loop (frame : Frame)
    (pairs : list (CascadeClassifier * Color)) (loc : Locals) : M Locals :=
  match pairs with
  | [] => ret loc
  | (model_cascade, color) :: rest =>
    let shp := model_shape model_cascade in
    let* pf := preprocess frame in
    emit (EvDetectMultiScale model_cascade) >>
    let obj_list := detectMultiScale env model_cascade pf in
    let* dsp := gets display in
    let* scale_factor_x := lift (py_truediv (shape1 frame) (size dsp).1) in
    let* scale_factor_y := lift (py_truediv (shape0 frame) (size dsp).2) in
    let acc := foldl (append_regions color shp scale_factor_x scale_factor_y)
                 (processed_frame_regions_list loc,
                  original_frame_regions_list loc) obj_list in
    detect_loop frame rest (mkLocals acc.2 acc.1 shp (Some pf))
  end.

Definition detect (frame : Frame) (processed_frame_preview : bool)
  : M (list Region * option Frame * option (list Region)) :=
  __start_time >>
  let* mods := gets models_cascade in
  let* cols := gets colors in
  let* loc := detect_loop frame (zip mods cols)
                (mkLocals [] [] RECTANGLE None) in
  __end_time >>
  if negb processed_frame_preview
  then ret (original_frame_regions_list loc, None, None)
  else match processed_frame loc with
       | None => raise UnboundLocalError
       | Some pf => ret (original_frame_regions_list loc, Some pf,
                         Some (processed_frame_regions_list loc))
       end.

(** Modelled from the spec: [Display.show] is declared in [cvlib]; it
    renders and returns nothing, and the working resolution held by the
    display is not touched after the first frame. *)
Definition display_show (frame : Frame) (regions : list Region)
    (frame_p : option Frame) (regions_p : option (list Region)) : M unit :=
  emit (EvShow frame regions frame_p regions_p).

Definition detect_and_display (frame : Frame)
    (processed_frame_preview : bool) : M unit :=
  let* out := detect frame processed_frame_preview in
  let '(regions, frame_p, frame_reg_p) := out in
  display_show frame regions frame_p frame_reg_p.

(** The [while True] loop of [start], over what the capture will deliver. *)
Fixpoint read_loop (processed_frame_preview : bool) (frames : list Frame)
  : M unit :=
  emit EvCapRead >>
  match frames with
  | [] => ret tt
  | frame :: rest =>
    detect_and_display frame processed_frame_preview >>
    let* k := waitKey 1 in
    if k =? 27 then ret tt else read_loop processed_frame_preview rest
  end.

(** The three log lines at the end of [start]. *)
Definition report_times : M unit :=
  let* buf := gets times in
  let* i := gets times_index in
  let* filled := lift (slice_to buf i) in
  logging INFO (AverageTime (np_average filled)) >>
  let* mx := lift (np_amax filled) in
  logging INFO (MaxTime mx) >>
  let* mn := lift (np_amin filled) in
  logging INFO (MinTime mn).

(** [start] from the line that builds the capture. *)
Definition start_capture (processed_frame_preview : bool) : M unit :=
  let* src := gets video_source in
  let* arg := lift (capture_arg src) in
  emit (EvVideoCapture arg) >>
  let cap := VideoCapture env arg in
  let frames_number := int_of_float (cap_frame_count cap) in
  when (0 <? frames_number)
    (modify (set_times (Some (np_empty frames_number)))) >>
  if negb (cap_opened cap) then
    logging ERROR CantOpen >> raise (SystemExit 1)
  else
    read_loop processed_frame_preview (cap_frames cap) >>
    when (0 <? frames_number) report_times.

Definition start (processed_frame_preview : bool) : M unit :=
  let* img := gets image in
  let* go_on :=
    match img with
    | Some path =>
      if truthy img then
        emit (EvImread path) >>
        let img_frame := imread env path in
        detect_and_display img_frame processed_frame_preview >>
        let* k := waitKey 0 in
        ret (negb (k =? 27))      (* [return] on ESC *)
      else ret true
    | None => ret true
    end in
  if go_on then start_capture processed_frame_preview else ret tt.

(** [Dispatcher.__init__] *)
Definition __init__ (models : list string)
    (video_source image : option string) : Dispatcher :=
  mkDispatcher (map (load_cascade env) models) video_source image
               None None 0%nat true
               (random_colors env (length models)) (new_display env).

(** [main]: build the dispatcher and start it on a fresh world. *)
Definition main (video_source image : option string)
    (models_name : list string) (processed_frame_preview : bool)
    (pending_keys : list Z) : Res unit * Dispatcher * World :=
  let models := map (model_path env) models_name in
  let disp := __init__ models video_source image in
  start processed_frame_preview disp (mkWorld 0%nat pending_keys []).

End Methods.

(** The status the interpreter exits with. *)
Definition exit_status {A} (r : Res A) : Z :=
  match r with
  | Ok _ => 0
  | Raise (SystemExit code) => code
  | Raise _ => 1
  end.

(** ** The boundary configuration module, [config/__init__.py] *)

(** What [load_yaml] returns: nested mappings; a scalar is kept as what
    [int] makes of it. *)
Inductive Yaml : Type :=
| YScalar (as_int : Res Z)
| YDict (entries : YEntries)
with YEntries : Type :=
| YNil
| YCons (key : string) (value : Yaml) (rest : YEntries).

Fixpoint assoc (k : string) (l : YEntries) : option Yaml :=
  match l with
  | YNil => None
  | YCons k' v l' => if String.eqb k k' then Some v else assoc k l'
  end.

(** [y[k]]: [KeyError] on a missing key; a scalar has no items. *)
Definition getitem (y : Res Yaml) (k : string) : Res Yaml :=
  match y with
  | Raise e => Raise e
  | Ok (YScalar _) => Raise TypeError
  | Ok (YDict l) => match assoc k l with
                    | Some v => Ok v
                    | None => Raise KeyError
                    end
  end.

(** [int(y)]; a mapping is not a number. *)
Definition yaml_int (y : Res Yaml) : Res Z :=
  match y with
  | Raise e => Raise e
  | Ok (YScalar r) => r
  | Ok (YDict _) => Raise TypeError
  end.

Definition pair_of (cb : Yaml) (bound kind : string) : Res (Z * Z) :=
  let entry := getitem (getitem (Ok cb) bound) kind in
  match yaml_int (getitem entry "width") with
  | Raise e => Raise e
  | Ok wd => match yaml_int (getitem entry "height") with
             | Raise e => Raise e
             | Ok ht => Ok (wd, ht)
             end
  end.

(** The module body: [config_file] is [None] when [path.isfile] is false,
    else the parsed document. *)
Definition config_boundarys (config_file : option Yaml) : Res Boundaries :=
  match config_file with
  | None => Ok NoBoundaries
  | Some cb =>
    match pair_of cb "min" "face" with
    | Raise e => Raise e
    | Ok fmin =>
    match pair_of cb "max" "face" with
    | Raise e => Raise e
    | Ok fmax =>
    match pair_of cb "min" "body" with
    | Raise e => Raise e
    | Ok bmin =>
    match pair_of cb "max" "body" with
    | Raise e => Raise e
    | Ok bmax => Ok (MinMax fmin fmax bmin bmax)
    end end end end
  end.

(** ** A concrete environment, for running the model *)

Module Sample.

Definition frame (rows cols : Z) : Frame := mkFrame rows cols [].

Definition env : Env := {|
  now := fun n => inject_Z (Z.of_nat (n * n));
  imread := fun _ => frame 480 640;
  cvtColor := fun f => f;
  resize := fun f sz => mkFrame sz.2 sz.1 (pixels f);
  equalizeHist := fun f => f;
  detectMultiScale := fun m f =>
    if String.eqb (model_file m) "data/face.xml"
    then [(10, 20, 30, 40); (50, 60, 70, 80)] else [(1, 2, 3, 4)];
  load_cascade := fun s =>
    mkCascade s (if String.eqb s "data/face.xml" then (24, 24) else (14, 28));
  VideoCapture := fun arg =>
    match arg with
    | CamIndex _ => mkCapture true (-1) [frame 480 640; frame 480 640]
    | FileName s =>
      if String.eqb s "clip.avi"
      then mkCapture true (inject_Z 2) [frame 480 640; frame 240 320]
      else if String.eqb s "long.avi"
      then mkCapture true (inject_Z 1) [frame 480 640; frame 480 640]
      else if String.eqb s "rtsp://cam"
      then mkCapture true 0 [frame 480 640]
      else mkCapture false 0 []
    end;
  garbage := fun n => inject_Z 1000;
  float32 := fun q => q;
  new_display := mkDisplay (0, 0);
  set_orientation := fun f _ => mkDisplay (shape1 f / 2, shape0 f / 2);
  random_colors := fun n => repeat (255, 0, 0) n;
  model_path := fun s => ("data/" ++ s)%string;
  boundaries := NoBoundaries
|}.


(** A dispatcher with a face model (square window) and a body model, a
    fresh world, and what one pass over a 640 by 480 frame hands back. *)
Definition disp : Dispatcher :=
  __init__ env ["data/face.xml"; "data/body.xml"]%string
                  (Some "0"%string) None.

Definition world0 : World := mkWorld 0 [] [].

Definition regions : list Region :=
  [mkRegion (inject_Z 10 * (inject_Z 640 / inject_Z 320))
            (inject_Z 20 * (inject_Z 480 / inject_Z 240))
            (inject_Z 30 * (inject_Z 640 / inject_Z 320))
            (inject_Z 40 * (inject_Z 480 / inject_Z 240))
            (255, 0, 0)%Z ELLIPSE;
   mkRegion (inject_Z 50 * (inject_Z 640 / inject_Z 320))
            (inject_Z 60 * (inject_Z 480 / inject_Z 240))
            (inject_Z 70 * (inject_Z 640 / inject_Z 320))
            (inject_Z 80 * (inject_Z 480 / inject_Z 240))
            (255, 0, 0)%Z ELLIPSE;
   mkRegion (inject_Z 1 * (inject_Z 640 / inject_Z 320))
            (inject_Z 2 * (inject_Z 480 / inject_Z 240))
            (inject_Z 3 * (inject_Z 640 / inject_Z 320))
            (inject_Z 4 * (inject_Z 480 / inject_Z 240))
            (255, 0, 0)%Z RECTANGLE]%Q.

Definition pass : Res (list Region * option Frame * option (list Region))
                  * Dispatcher * World :=
  detect env (frame 480 640) false disp world0.

End Sample.

(** * Vocabulary of the specification *)

(** [wp m Q d w]: the outcome of [m] from [d] and [w] satisfies [Q]. *)
Definition wp {A} (m : M A) (Q : Res A -> Dispatcher -> World -> Prop)
    (d : Dispatcher) (w : World) : Prop :=
  Q (m d w).1.1 (m d w).1.2 (m d w).2.

(** [stable I m]: [m] keeps [I], whether it returns or raises. *)
Definition stable {A} (I : Dispatcher -> World -> Prop) (m : M A) : Prop :=
  forall d w, I d w -> wp m (fun _ d' w' => I d' w') d w.

(** ** The timing buffer *)

(** The attributes no method assigns after [__init__]. *)
Definition same_config (d0 d : Dispatcher) : Prop :=
  models_cascade d = models_cascade d0
  /\ video_source d = video_source d0
  /\ image d = image d0
  /\ colors d = colors d0.

(** What one call of [__end_time] does to the buffer: nothing, or one
    store at the current index, which is then inside the buffer, followed
    by the increment. *)
Definition end_time_effect (d d' : Dispatcher) : Prop :=
  d' = d
  \/ exists buf v,
       times d = Some buf /\ (times_index d < length buf)%nat
       /\ d' = set_times_index (S (times_index d))
                 (set_times (Some (<[times_index d := v]> buf)) d).

(** An invariant on the buffer and its index, for an object configured
    as [d0] is. *)
Definition buffer_inv (d0 : Dispatcher) (P : option (list Q) -> nat -> Prop)
  : Dispatcher -> World -> Prop :=
  fun d _ => same_config d0 d /\ P (times d) (times_index d).

(** The number of frames [start] reads off the capture. *)
Definition frames_number (env : Env) (arg : CapArg) : Z :=
  int_of_float (cap_frame_count (VideoCapture env arg)).

(** No buffer yet, and nothing stored. *)
Definition unset (buf : option (list Q)) (i : nat) : Prop :=
  buf = None /\ i = 0%nat.

(** A buffer of [n] slots, and an index within them. *)
Definition allocated (n : nat) (buf : option (list Q)) (i : nat) : Prop :=
  match buf with
  | None => False
  | Some l => length l = n /\ (i <= n)%nat
  end.

(** Either of the two, the length being the one queried for [src]. *)
Definition unset_or_allocated (env : Env) (src : option string)
    (buf : option (list Q)) (i : nat) : Prop :=
  unset buf i
  \/ exists arg, capture_arg src = Ok arg
       /\ allocated (Z.to_nat (frames_number env arg)) buf i.

(** Nothing stored, and the buffer, if any, is as [np.empty] made it. *)
Definition untouched (env : Env) (src : option string)
    (buf : option (list Q)) (i : nat) : Prop :=
  i = 0%nat
  /\ (buf = None
      \/ exists arg, capture_arg src = Ok arg
           /\ buf = Some (np_empty env (frames_number env arg))).

(** ** What one detection pass computes *)

(** The object after the first-frame latch of [preprocess] has been
    passed with [frame]. *)
Definition latch (env : Env) (frame : Frame) (d : Dispatcher) : Dispatcher :=
  if is_first_frame d
  then set_is_first_frame false
         (set_display (set_orientation env frame (display d)) d)
  else d.

(** The frame [preprocess] returns for [frame] at working resolution
    [dsize]. *)
Definition processed (env : Env) (frame : Frame) (dsize : Z * Z) : Frame :=
  equalizeHist env (resize env (cvtColor env frame) dsize).

Definition preprocess_events (frame : Frame) (first : bool) (dsize : Z * Z)
  : list Event :=
  EvCvtColor frame
  :: (if first then [EvSetOrientation frame] else [])
  ++ [EvResize dsize; EvEqualizeHist].

Fixpoint loop_events (frame : Frame) (first : bool) (dsize : Z * Z)
    (pairs : list (CascadeClassifier * Color)) : list Event :=
  match pairs with
  | [] => []
  | (model_cascade, _) :: rest =>
    preprocess_events frame first dsize
    ++ [EvDetectMultiScale model_cascade]
    ++ loop_events frame false dsize rest
  end.

Definition scale_x (frame : Frame) (dsize : Z * Z) : Q :=
  (inject_Z (shape1 frame) / inject_Z dsize.1)%Q.

Definition scale_y (frame : Frame) (dsize : Z * Z) : Q :=
  (inject_Z (shape0 frame) / inject_Z dsize.2)%Q.

(** The regions of one pass, model after model, each model's detections
    in the order the detector reported them. *)
Definition original_regions (env : Env) (frame : Frame) (dsize : Z * Z)
    (pairs : list (CascadeClassifier * Color)) : list Region :=
  flat_map (fun mc =>
              map (original_region mc.2 (model_shape mc.1)
                     (scale_x frame dsize) (scale_y frame dsize))
                  (detectMultiScale env mc.1 (processed env frame dsize)))
           pairs.

Definition working_regions (env : Env) (frame : Frame) (dsize : Z * Z)
    (pairs : list (CascadeClassifier * Color)) : list Region :=
  flat_map (fun mc =>
              map (working_region mc.2 (model_shape mc.1))
                  (detectMultiScale env mc.1 (processed env frame dsize)))
           pairs.

(** The locals when the loop over [pairs] is left. *)
Definition locals_after (env : Env) (frame : Frame) (dsize : Z * Z)
    (pairs : list (CascadeClassifier * Color)) (loc : Locals) : Locals :=
  mkLocals
    (original_frame_regions_list loc ++ original_regions env frame dsize pairs)
    (processed_frame_regions_list loc ++ working_regions env frame dsize pairs)
    (List.last (map (fun mc => model_shape mc.1) pairs) (shape loc))
    (match pairs with
     | [] => processed_frame loc
     | _ => Some (processed env frame dsize)
     end).

Definition add_events (w : World) (evs : list Event) : World :=
  mkWorld (clock w) (keys w) (trace w ++ evs).

(** The object when the loop over [pairs] is left, however it is left. *)
Definition after_loop (env : Env) (frame : Frame)
    (pairs : list (CascadeClassifier * Color)) (d : Dispatcher) : Dispatcher :=
  match pairs with
  | [] => d
  | _ => latch env frame d
  end.

(** What [detect] returns once the loop and [__end_time] have returned. *)
Definition detect_result (processed_frame_preview : bool) (loc : Locals)
  : Res (list Region * option Frame * option (list Region)) :=
  if negb processed_frame_preview
  then Ok (original_frame_regions_list loc, None, None)
  else match processed_frame loc with
       | None => Raise UnboundLocalError
       | Some pf => Ok (original_frame_regions_list loc, Some pf,
                        Some (processed_frame_regions_list loc))
       end.

(** The shape of a model in the words of the specification: an ellipse for
    a square window, a rectangle otherwise. *)
Definition spec_shape (window : Z * Z) : Shape :=
  if window.1 =? window.2 then ELLIPSE else RECTANGLE.

(** ** The first-frame latch *)

(** The frame of the first call of [preprocess] in a trace, and the sizes
    passed to [cv.resize], oldest first. *)
Fixpoint first_preprocessed (tr : list Event) : option Frame :=
  match tr with
  | [] => None
  | EvCvtColor f :: _ => Some f
  | _ :: tr' => first_preprocessed tr'
  end.

Definition resize_of (e : Event) : list (Z * Z) :=
  match e with
  | EvResize dsize => [dsize]
  | _ => []
  end.

Definition resizes (tr : list Event) : list (Z * Z) := flat_map resize_of tr.

(** Before the first call of [preprocess] the latch is open and the display
    is as [display0]; from then on the latch is shut, the display is the
    one oriented on that first frame, and every resize so far has used its
    size. *)
Definition latch_inv (env : Env) (display0 : Display)
  : Dispatcher -> World -> Prop :=
  fun d w =>
    match first_preprocessed (trace w) with
    | None => is_first_frame d = true /\ display d = display0
              /\ resizes (trace w) = []
    | Some f0 =>
      is_first_frame d = false
      /\ display d = set_orientation env f0 display0
      /\ Forall (eq (size (set_orientation env f0 display0)))
                (resizes (trace w))
    end.

(** ** [__end_time], case by case *)

Definition frame_time_logged (env : Env) (w : World) (t0 : Q) : World :=
  mkWorld (S (clock w)) (keys w)
          (trace w ++ [EvLog INFO (FrameTime (now env (clock w) - t0))]).

(** ** One detection pass, case by case *)

Definition nonzero (dsize : Z * Z) : Prop := dsize.1 <> 0 /\ dsize.2 <> 0.

(** The loop over the models will not divide by zero on [frame]. *)
Definition ready (env : Env) (frame : Frame) (d : Dispatcher) : Prop :=
  zip (models_cascade d) (colors d) = []
  \/ nonzero (size (display (latch env frame d))).

(** The object and the world when the loop over the models of a pass that
    started from [d] and [w] has run to its end. *)
Definition pass_object (env : Env) (frame : Frame) (d : Dispatcher) (w : World)
  : Dispatcher :=
  after_loop env frame (zip (models_cascade d) (colors d))
    (set_start_time_int (Some (now env (clock w))) d).

Definition pass_world (frame : Frame) (d d1 : Dispatcher) (w : World) : World :=
  add_events (mkWorld (S (clock w)) (keys w) (trace w))
    (loop_events frame (is_first_frame d) (size (display d1))
       (zip (models_cascade d) (colors d))).

Definition pass_locals (env : Env) (frame : Frame) (d d1 : Dispatcher)
  : Locals :=
  locals_after env frame (size (display d1))
    (zip (models_cascade d) (colors d)) (mkLocals [] [] RECTANGLE None).

(** ** The statistics at the end of the run *)

(** What pass number [j] of a run stores: the clock is read three times a
    pass, on entry, for the log line and for the store. *)
Definition stored (env : Env) (j : nat) : Q :=
  float32 env (now env (3 * j + 2) - now env (3 * j))%Q.

Definition written (env : Env) (k : nat) : list Q :=
  map (stored env) (seq 0 k).

(** The buffer of a non-camera source between two passes. *)
Definition filled (env : Env) (s : string) (n : nat)
  : Dispatcher -> World -> Prop :=
  fun d w =>
    video_source d = Some s
    /\ clock w = (3 * times_index d)%nat
    /\ exists buf, times d = Some buf /\ length buf = n
         /\ take (times_index d) buf = written env (times_index d).

Definition is_mean (a : Q) (l : list Q) : Prop :=
  l <> [] /\ (a * inject_Z (Z.of_nat (length l)) == Qsum l)%Q.

Definition is_maximum (m : Q) (l : list Q) : Prop :=
  In m l /\ forall x, In x l -> (x <= m)%Q.

Definition is_minimum (m : Q) (l : list Q) : Prop :=
  In m l /\ forall x, In x l -> (m <= x)%Q.

(** ** A camera run *)

(** What a pass needs to return on a camera source: a numeric source, and
    at least one model when the preview is asked for. *)
Definition camera (s : string) (preview : bool) (d : Dispatcher) : Prop :=
  video_source d = Some s /\ isnumeric s = true
  /\ (preview = true -> zip (models_cascade d) (colors d) <> []).

(** ** Counting external calls *)

Definition is_preprocess (e : Event) : bool :=
  match e with EvCvtColor _ => true | _ => false end.

Definition is_read (e : Event) : bool :=
  match e with EvCapRead => true | _ => false end.

Definition is_imread (e : Event) : bool :=
  match e with EvImread _ => true | _ => false end.

Definition is_show (e : Event) : bool :=
  match e with EvShow _ _ _ _ => true | _ => false end.

Definition count (p : Event -> bool) (tr : list Event) : nat :=
  length (List.filter p tr).

(** ** Further vocabulary *)

Definition is_statistic (e : Event) : bool :=
  match e with
  | EvLog _ (AverageTime _) | EvLog _ (MaxTime _) | EvLog _ (MinTime _) => true
  | _ => false
  end.

Definition is_set_orientation (e : Event) : bool :=
  match e with EvSetOrientation _ => true | _ => false end.

Definition is_wait (e : Event) : bool :=
  match e with EvWaitKey _ => true | _ => false end.

Definition is_capture (e : Event) : bool :=
  match e with EvVideoCapture _ => true | _ => false end.

(** A region of the working frame, scaled into the original frame. *)
Definition rescale (sx sy : Q) (r : Region) : Region :=
  mkRegion (region_x r * sx) (region_y r * sy)
           (region_w r * sx) (region_h r * sy)
           (region_color r) (region_shape r).

(** What a pass needs to return on a source that is not a camera: a source
    that is not numeric, and at least one model when the preview is asked
    for. *)
Definition bounded (s : string) (preview : bool) (d : Dispatcher) : Prop :=
  video_source d = Some s /\ isnumeric s = false
  /\ (preview = true -> zip (models_cascade d) (colors d) <> []).

(** The number of passes of the read loop over [frames] with the key
    presses [ks]: one per frame, up to and including the pass that is
    followed by escape; and the number of calls of [cap.read]. *)
Fixpoint passes (frames : list Frame) (ks : list Z) : nat :=
  match frames with
  | [] => 0
  | _ :: rest =>
    S (if hd (-1) ks =? 27 then 0 else passes rest (tail ks))
  end.

Fixpoint reads (frames : list Frame) (ks : list Z) : nat :=
  S (match frames with
     | [] => 0
     | _ :: rest => if hd (-1) ks =? 27 then 0 else reads rest (tail ks)
     end).

(** [p] holds of none of the calls [detect] makes. *)
Definition quiet_in_detect (p : Event -> bool) : Prop :=
  (forall f, p (EvCvtColor f) = false)
  /\ (forall f, p (EvSetOrientation f) = false)
  /\ (forall dsize, p (EvResize dsize) = false)
  /\ p EvEqualizeHist = false
  /\ (forall m, p (EvDetectMultiScale m) = false)
  /\ (forall lvl t, p (EvLog lvl (FrameTime t)) = false).

(** The tallies the loop theorems follow: frames shown, calls of
    [cap.read], key polls, statistics logged. *)
Definition tally (tr : list Event) : nat * nat * nat * nat :=
  (count is_show tr, count is_read tr, count is_wait tr,
   count is_statistic tr).


(** The integer a document holds at the end of a path of keys:
    [int(cb[k1][k2]...)]. *)
Definition int_at (cb : Yaml) (keys : list string) : Res Z :=
  yaml_int (fold_left getitem keys (Ok cb)).

(** * Reasoning about methods *)

(** ** The model at work *)

Example isnumeric_camera : isnumeric "0" = true.
Proof. reflexivity. Qed.

Example isnumeric_file : isnumeric "clip.avi" = false.
Proof. reflexivity. Qed.

Example isnumeric_empty : isnumeric "" = false.
Proof. reflexivity. Qed.

(** One half, code point 189, is numeric and is not an integer. *)
Example capture_arg_one_half :
  isnumeric (String (ascii_of_nat 189) EmptyString) = true
  /\ capture_arg (Some (String (ascii_of_nat 189) EmptyString))
     = Raise ValueError.
Proof. by split. Qed.

Example capture_arg_camera : capture_arg (Some "12"%string) = Ok (CamIndex 12).
Proof. reflexivity. Qed.

Example capture_arg_none : capture_arg None = Raise TypeError.
Proof. reflexivity. Qed.

Example int_of_float_truncates :
  int_of_float (7 # 2) = 3 /\ int_of_float (-7 # 2) = -3.
Proof. by split. Qed.

Example square_window : model_shape (mkCascade "face" (24, 24)) = ELLIPSE.
Proof. reflexivity. Qed.

Example tall_window : model_shape (mkCascade "body" (14, 28)) = RECTANGLE.
Proof. reflexivity. Qed.

(** A two-frame clip with a reported count of two: both passes store. *)
Example run_clip :
  let out := main Sample.env (Some "clip.avi"%string) None ["face.xml"%string]
               false [] in
  out.1.1 = Ok tt /\ times out.1.2 = Some [4%Q; 16%Q]
  /\ times_index out.1.2 = 2%nat.
Proof. by vm_compute. Qed.

(** Two frames delivered where one was reported: the second store fails. *)
Example run_long :
  let out := main Sample.env (Some "long.avi"%string) None ["face.xml"%string]
               false [] in
  out.1.1 = Raise IndexError /\ times out.1.2 = Some [4%Q]
  /\ times_index out.1.2 = 1%nat /\ exit_status out.1.1 = 1.
Proof. by vm_compute. Qed.

(** The preview asked of a dispatcher without models. *)
Example run_no_model_preview :
  (main Sample.env (Some "0"%string) None [] true []).1.1
  = Raise UnboundLocalError.
Proof. by vm_compute. Qed.

(** A parsed configuration file, and one that lacks an entry. *)
Example config_parsed :
  let dims := YDict (YCons "width" (YScalar (Ok 10))
                      (YCons "height" (YScalar (Ok 20)) YNil)) in
  let kinds := YDict (YCons "face" dims (YCons "body" dims YNil)) in
  config_boundarys (Some (YDict (YCons "min" kinds (YCons "max" kinds YNil))))
  = Ok (MinMax (10, 20) (10, 20) (10, 20) (10, 20)).
Proof. reflexivity. Qed.

Example config_incomplete :
  config_boundarys (Some (YDict YNil)) = Raise KeyError.
Proof. reflexivity. Qed.

(** ** The calculus *)

Lemma wp_bind {A B} (m : M A) (k : A -> M B) Q d w :
  wp m (fun r d' w' => match r with
                       | Ok a => wp (k a) Q d' w'
                       | Raise e => Q (Raise e) d' w'
                       end) d w ->
  wp (bind m k) Q d w.
Proof.
  unfold wp, bind. destruct (m d w) as [[[a | e] d'] w']; simpl; auto.
Qed.

Lemma wp_conseq {A} (m : M A) (P Q : Res A -> Dispatcher -> World -> Prop) d w :
  wp m P d w -> (forall r d' w', P r d' w' -> Q r d' w') -> wp m Q d w.
Proof. unfold wp. auto. Qed.

Section Stable.

Context (I : Dispatcher -> World -> Prop).

Lemma stable_bind {A B} (m : M A) (k : A -> M B) :
  stable I m -> (forall a, stable I (k a)) -> stable I (bind m k).
Proof.
  intros Hm Hk d w HI. apply wp_bind.
  eapply wp_conseq; [apply Hm, HI |].
  intros [a | e] d' w' HI'; [apply Hk, HI' | exact HI'].
Qed.

Lemma stable_ret {A} (a : A) : stable I (ret a).
Proof. intros d w HI. exact HI. Qed.

Lemma stable_raise {A} (e : exn) : stable I (@raise A e).
Proof. intros d w HI. exact HI. Qed.

Lemma stable_lift {A} (r : Res A) : stable I (lift r).
Proof. intros d w HI. exact HI. Qed.

Lemma stable_gets {A} (f : Dispatcher -> A) : stable I (gets f).
Proof. intros d w HI. exact HI. Qed.

Lemma stable_when (b : bool) (m : M unit) : stable I m -> stable I (when b m).
Proof. destruct b; [auto | intros _; apply stable_ret]. Qed.

End Stable.

(** Decompose a goal [stable I m] along the structure of [m]; [known]
    closes the calls that change the object or the world, and the calls
    to methods already dealt with. *)
Ltac stable_with known :=
  repeat first
    [ known
    | apply stable_ret | apply stable_raise | apply stable_lift
    | apply stable_gets
    | apply stable_bind; [| intros ?]
    | apply stable_when
    | match goal with
      | |- stable _ (if ?b then _ else _) => destruct b
      | |- stable _ (match ?x with _ => _ end) => destruct x
      end ].

(** An invariant that only reads the object is kept by a call that only
    changes the world, and conversely. *)
Lemma stable_emit (I : Dispatcher -> World -> Prop) (e : Event) :
  (forall d w, I d w -> I d (mkWorld (clock w) (keys w) (trace w ++ [e]))) ->
  stable I (emit e).
Proof. intros H d w HI. apply H, HI. Qed.

Lemma stable_modify (I : Dispatcher -> World -> Prop) f :
  (forall d w, I d w -> I (f d) w) -> stable I (modify f).
Proof. intros H d w HI. apply H, HI. Qed.

Lemma stable_time_time env (I : Dispatcher -> World -> Prop) :
  (forall d w, I d w -> I d (mkWorld (S (clock w)) (keys w) (trace w))) ->
  stable I (time_time env).
Proof. intros H d w HI. apply H, HI. Qed.

Lemma stable_waitKey (I : Dispatcher -> World -> Prop) delay :
  (forall d w ks, I d w ->
     I d (mkWorld (clock w) ks (trace w ++ [EvWaitKey delay]))) ->
  stable I (waitKey delay).
Proof.
  intros H d w HI. unfold wp, waitKey.
  destruct (keys w); simpl; apply H, HI.
Qed.

(** ** The timing buffer *)

Lemma end_time_buffer env d w :
  end_time_effect d (__end_time env d w).1.2.
Proof.
  destruct d as [mods src img t0 buf i first cols dsp].
  unfold __end_time, end_time_effect, bind, time_time, gets, lift, logging,
    emit, modify, ret, setitem. simpl.
  destruct t0 as [t0 |]; simpl; [| by left].
  destruct src as [s |]; simpl; [| by left].
  destruct (isnumeric s); simpl; [by left |].
  destruct buf as [buf |]; simpl; [| by left].
  case_bool_decide; simpl; [| by left].
  right. eexists _, _. repeat split; [done |].
  unfold set_times_index, set_times. simpl. by rewrite Nat.add_1_r.
Qed.

(** Symbolic execution of the first call of a sequence. *)
Ltac wp_head :=
  lazymatch goal with
  | |- wp (bind (gets ?f) ?k) ?Q ?d ?w =>
    change (wp (k (f d)) Q d w)
  | |- wp (bind (modify ?f) ?k) ?Q ?d ?w =>
    change (wp (k tt) Q (f d) w)
  | |- wp (bind (emit ?e) ?k) ?Q ?d ?w =>
    change (wp (k tt) Q d (mkWorld (clock w) (keys w) (trace w ++ [e])))
  | |- wp (bind (logging ?l ?m) ?k) ?Q ?d ?w =>
    change (wp (k tt) Q d
              (mkWorld (clock w) (keys w) (trace w ++ [EvLog l m])))
  | |- wp (bind (time_time ?env) ?k) ?Q ?d ?w =>
    change (wp (k (now env (clock w))) Q d
              (mkWorld (S (clock w)) (keys w) (trace w)))
  | |- wp (bind (lift (Ok ?a)) ?k) ?Q ?d ?w =>
    change (wp (k a) Q d w)
  | |- wp (bind (lift (Raise ?e)) ?k) ?Q ?d ?w =>
    change (Q (Raise e) d w)
  | |- wp (bind (ret ?a) ?k) ?Q ?d ?w =>
    change (wp (k a) Q d w)
  | |- wp (bind (raise ?e) ?k) ?Q ?d ?w =>
    change (Q (Raise e) d w)
  | |- wp (ret ?a) ?Q ?d ?w =>
    change (Q (Ok a) d w)
  | |- wp (raise ?e) ?Q ?d ?w =>
    change (Q (Raise e) d w)
  | |- wp (modify ?f) ?Q ?d ?w =>
    change (Q (Ok tt) (f d) w)
  | |- wp (logging ?l ?m) ?Q ?d ?w =>
    change (Q (Ok tt) d (mkWorld (clock w) (keys w) (trace w ++ [EvLog l m])))
  | |- wp (emit ?e) ?Q ?d ?w =>
    change (Q (Ok tt) d (mkWorld (clock w) (keys w) (trace w ++ [e])))
  end; cbv beta.

(** Use the specification [H] of the first call, then continue with what
    it returned. *)
Ltac wp_call H :=
  apply wp_bind; eapply wp_conseq; [apply H | cbv beta].

Lemma wp_stable {A} (I : Dispatcher -> World -> Prop) (m : M A) d w :
  stable I m -> I d w -> wp m (fun _ d' w' => I d' w') d w.
Proof. intros H. apply H. Qed.

Lemma length_np_empty env n : length (np_empty env n) = Z.to_nat n.
Proof. unfold np_empty. by rewrite length_map, length_seq. Qed.

Section BufferInvariant.

Variable env : Env.
Variable d0 : Dispatcher.
Variable P : option (list Q) -> nat -> Prop.

(** [P] survives [__end_time]. *)
Hypothesis P_end_time : stable (buffer_inv d0 P) (__end_time env).

Ltac buffer_prims :=
  first [ apply stable_emit | apply stable_modify | apply stable_time_time
        | apply stable_waitKey ];
  intros; assumption.

Lemma buffer_preprocess frame : stable (buffer_inv d0 P) (preprocess env frame).
Proof. unfold preprocess. stable_with buffer_prims. Qed.

Lemma buffer_detect_loop frame pairs loc :
  stable (buffer_inv d0 P) (detect_loop env frame pairs loc).
Proof.
  revert loc. induction pairs as [| [model_cascade color] rest IH]; intros loc.
  - apply stable_ret.
  - cbn [detect_loop].
    stable_with ltac:(first [apply IH | apply buffer_preprocess | buffer_prims]).
Qed.

Lemma buffer_detect frame preview :
  stable (buffer_inv d0 P) (detect env frame preview).
Proof.
  unfold detect, __start_time.
  stable_with ltac:(first [apply buffer_detect_loop | apply P_end_time
                          | buffer_prims]).
Qed.

Lemma buffer_detect_and_display frame preview :
  stable (buffer_inv d0 P) (detect_and_display env frame preview).
Proof.
  unfold detect_and_display, display_show.
  apply stable_bind; [apply buffer_detect |].
  intros [[regions frame_p] frame_reg_p]. buffer_prims.
Qed.

Lemma buffer_read_loop preview frames :
  stable (buffer_inv d0 P) (read_loop env preview frames).
Proof.
  induction frames as [| frame rest IH]; cbn [read_loop].
  - stable_with buffer_prims.
  - stable_with ltac:(first [apply IH | apply buffer_detect_and_display
                            | buffer_prims]).
Qed.

Lemma buffer_report_times : stable (buffer_inv d0 P) report_times.
Proof. unfold report_times, logging. stable_with buffer_prims. Qed.

(** [P] survives the allocation made by [start]. *)
Hypothesis P_alloc : forall arg buf i,
  capture_arg (video_source d0) = Ok arg ->
  0 < frames_number env arg ->
  P buf i -> P (Some (np_empty env (frames_number env arg))) i.

Lemma buffer_start_capture preview :
  stable (buffer_inv d0 P) (start_capture env preview).
Proof.
  intros d w [Hc HP]. unfold start_capture. wp_head.
  assert (Hsrc : video_source d = video_source d0) by apply Hc.
  rewrite Hsrc.
  destruct (capture_arg (video_source d0)) as [arg | e] eqn:Harg; wp_head;
    [| by split].
  wp_head. fold (frames_number env arg).
  apply wp_bind.
  eapply (wp_conseq _ (fun _ d' w' => buffer_inv d0 P d' w')).
  { destruct (0 <? frames_number env arg) eqn:HN; unfold when; wp_head.
    - split; [exact Hc |]. simpl.
      apply (P_alloc arg (times d)); [done | lia | exact HP].
    - by split. }
  intros [[] | e] d1 w1 H1; [| exact H1].
  revert d1 w1 H1.
  match goal with
  | |- forall d1 w1, _ -> wp ?m _ d1 w1 => change (stable (buffer_inv d0 P) m)
  end.
  unfold logging.
  stable_with ltac:(first
    [ apply buffer_read_loop | apply buffer_report_times | buffer_prims ]).
Qed.

Lemma buffer_start preview : stable (buffer_inv d0 P) (start env preview).
Proof.
  unfold start.
  stable_with ltac:(first
    [ apply buffer_start_capture | apply buffer_detect_and_display
    | buffer_prims ]).
Qed.

End BufferInvariant.

Lemma allocated_store n (buf : list Q) i v :
  (i < length buf)%nat -> allocated n (Some buf) i ->
  allocated n (Some (<[i := v]> buf)) (S i).
Proof.
  unfold allocated. intros Hi [Hn _]. rewrite length_insert. lia.
Qed.

(** An invariant that survives a store survives [__end_time]. *)
Lemma buffer_end_time_store env d0 (P : option (list Q) -> nat -> Prop) :
  (forall buf i v, (i < length buf)%nat -> P (Some buf) i ->
                   P (Some (<[i := v]> buf)) (S i)) ->
  stable (buffer_inv d0 P) (__end_time env).
Proof.
  intros P_store d w [Hc HP]. unfold wp, buffer_inv.
  destruct (end_time_buffer env d w) as [-> | (buf & v & Hb & Hi & ->)];
    [by split |].
  split; [exact Hc |]. simpl. rewrite Hb in HP. by apply P_store.
Qed.

(** With a numeric source, [__end_time] leaves the object as it is. *)
Lemma end_time_numeric env d w s :
  video_source d = Some s -> isnumeric s = true ->
  (__end_time env d w).1.2 = d.
Proof.
  destruct d as [mods src img st tm i first cols dsp]. simpl. intros -> Hs.
  unfold __end_time, bind, time_time, gets, lift, logging, emit, modify, ret.
  simpl. destruct st; simpl; [| done]. by rewrite Hs.
Qed.

Lemma buffer_end_time_numeric env d0 (P : option (list Q) -> nat -> Prop) s :
  video_source d0 = Some s -> isnumeric s = true ->
  stable (buffer_inv d0 P) (__end_time env).
Proof.
  intros Hsrc Hs d w [Hc HP]. unfold wp.
  rewrite (end_time_numeric env d w s); [by split | | done].
  destruct Hc as (_ & -> & _). exact Hsrc.
Qed.

Lemma start_buffer env preview d w :
  unset (times d) (times_index d) ->
  wp (start env preview)
     (fun _ d' _ => unset_or_allocated env (video_source d)
                      (times d') (times_index d')) d w.
Proof.
  intros Hu.
  eapply wp_conseq;
    [apply (wp_stable (buffer_inv d (unset_or_allocated env (video_source d))))
    | by intros ? ? ? [_ ?]].
  - apply buffer_start.
    + apply buffer_end_time_store.
      intros buf i v Hi [[? _] | (arg & Harg & Ha)]; [done |].
      right. exists arg. split; [done |]. by apply allocated_store.
    + intros arg buf i Harg HN HP. right. exists arg. split; [done |].
      unfold allocated. rewrite length_np_empty. split; [done |].
      destruct HP as [[_ ->] | (arg' & Harg' & Ha)]; [lia |].
      rewrite Harg in Harg'. injection Harg' as <-.
      destruct buf; [apply Ha | done].
  - split; [done | by left].
Qed.

Lemma end_time_past_the_end env d w buf s t0 :
  times d = Some buf -> (length buf <= times_index d)%nat ->
  video_source d = Some s -> isnumeric s = false ->
  start_time_int d = Some t0 ->
  (__end_time env d w).1.1 = Raise IndexError /\ (__end_time env d w).1.2 = d.
Proof.
  destruct d as [mods src img st tm i first cols dsp]. simpl.
  intros -> Hlen -> Hs ->.
  unfold __end_time, bind, time_time, gets, lift, logging, emit, modify, ret,
    setitem. simpl. rewrite Hs. simpl.
  case_bool_decide; [lia | done].
Qed.

(** C2: for a run of the program, the timing buffer, when there is one,
    has exactly the length computed from the frame count the capture
    reported, and the index of the next store never exceeds that length.
    A call of [__end_time] stores at most once, at the current index and
    only when that index is inside the buffer, and increments the index
    with the store; once the index has reached the length, the store of a
    non-camera source is stopped by the index check of the array
    ([IndexError]) and the object is left as it was. *)
Theorem timing_buffer_never_overrun env :
  (forall src img models preview ks buf,
     let d := (main env src img models preview ks).1.2 in
     times d = Some buf ->
     exists arg, capture_arg src = Ok arg
       /\ length buf = Z.to_nat (frames_number env arg)
       /\ (times_index d <= length buf)%nat)
  /\ (forall d w, end_time_effect d (__end_time env d w).1.2)
  /\ (forall d w buf s t0,
        times d = Some buf -> (length buf <= times_index d)%nat ->
        video_source d = Some s -> isnumeric s = false ->
        start_time_int d = Some t0 ->
        (__end_time env d w).1.1 = Raise IndexError
        /\ (__end_time env d w).1.2 = d).
Proof.
  split; [| split; [apply end_time_buffer | apply end_time_past_the_end]].
  intros src img models preview ks buf d Hbuf. subst d. unfold main in *.
  match type of Hbuf with
  | times (start _ _ ?d0 ?w0).1.2 = _ =>
    pose proof (start_buffer env preview d0 w0 (conj eq_refl eq_refl)) as H
  end.
  unfold wp, unset_or_allocated in H. rewrite Hbuf in H.
  destruct H as [[? _] | (arg & Harg & Hlen & Hi)]; [done |].
  exists arg. simpl in Harg. repeat split; [done | done | lia].
Qed.

Lemma timing_buffer_never_overrun_witness :
  (exists arg, capture_arg (Some "long.avi"%string) = Ok arg
     /\ length [4%Q] = Z.to_nat (frames_number Sample.env arg)
     /\ (1 <= length [4%Q])%nat)
  /\ (__end_time Sample.env
        (mkDispatcher [] (Some "long.avi"%string) None (Some 0%Q)
                      (Some [4%Q]) 1 false [] (mkDisplay (320, 240)))
        (mkWorld 0 [] [])).1.1 = Raise IndexError.
Proof.
  split.
  - exact (proj1 (timing_buffer_never_overrun Sample.env)
             (Some "long.avi"%string) None ["face.xml"%string] false []
             [4%Q] eq_refl).
  - exact (proj1 (proj2 (proj2 (timing_buffer_never_overrun Sample.env))
             (mkDispatcher [] (Some "long.avi"%string) None (Some 0%Q)
                           (Some [4%Q]) 1 false [] (mkDisplay (320, 240)))
             (mkWorld 0 [] []) [4%Q] "long.avi"%string 0%Q
             eq_refl (le_n 1) eq_refl eq_refl eq_refl)).
Defined.

(** ** What one detection pass computes *)

Lemma latch_latched env frame d :
  is_first_frame (latch env frame d) = false.
Proof. unfold latch. by destruct (is_first_frame d) eqn:H. Qed.

Lemma latch_idem env frame frame' d :
  latch env frame' (latch env frame d) = latch env frame d.
Proof. unfold latch at 1. by rewrite latch_latched. Qed.

Lemma preprocess_eq env frame d w :
  preprocess env frame d w
  = (Ok (processed env frame (size (display (latch env frame d)))),
     latch env frame d,
     add_events w (preprocess_events frame (is_first_frame d)
                     (size (display (latch env frame d))))).
Proof.
  destruct d as [mods src img t0 buf i first cols dsp], w as [c ks tr].
  unfold preprocess, latch, add_events, preprocess_events, bind, emit, gets,
    modify, when, ret. destruct first; simpl; by rewrite <- !app_assoc.
Qed.

Lemma foldl_append_regions color shp sx sy objs acc :
  foldl (append_regions color shp sx sy) acc objs
  = (acc.1 ++ map (working_region color shp) objs,
     acc.2 ++ map (original_region color shp sx sy) objs).
Proof.
  revert acc. induction objs as [| r objs IH]; intros [p o]; simpl.
  - by rewrite !app_nil_r.
  - rewrite IH. simpl. by rewrite <- !app_assoc.
Qed.

(** One iteration of the loop over the models. *)
Lemma detect_loop_cons env frame model_cascade color rest loc d w :
  let d1 := latch env frame d in
  let dsize := size (display d1) in
  detect_loop env frame ((model_cascade, color) :: rest) loc d w
  = if (dsize.1 =? 0) || (dsize.2 =? 0)
    then (Raise ZeroDivisionError, d1,
          add_events w (preprocess_events frame (is_first_frame d) dsize
                        ++ [EvDetectMultiScale model_cascade]))
    else detect_loop env frame rest
           (locals_after env frame dsize [(model_cascade, color)] loc) d1
           (add_events w (preprocess_events frame (is_first_frame d) dsize
                          ++ [EvDetectMultiScale model_cascade])).
Proof.
  intros d1 dsize. cbn [detect_loop]. unfold bind at 1.
  rewrite preprocess_eq. fold d1. fold dsize.
  unfold bind, emit, gets, lift, py_truediv, add_events. simpl.
  rewrite <- app_assoc. subst dsize.
  destruct ((size (display d1)).1 =? 0); simpl; [done |].
  destruct ((size (display d1)).2 =? 0); simpl; [done |].
  rewrite foldl_append_regions. simpl.
  unfold locals_after, original_regions, working_regions. simpl.
  by rewrite !app_nil_r.
Qed.

Lemma last_nonempty {A} (l : list A) (b a d : A) :
  List.last (b :: l) a = List.last (b :: l) d.
Proof.
  revert b. induction l as [| c l IH]; intros b; [done |].
  change (List.last (c :: l) a = List.last (c :: l) d). apply IH.
Qed.

Lemma last_cons_default {A} (l : list A) (a d : A) :
  List.last l a = List.last (a :: l) d.
Proof.
  destruct l as [| b l]; [done |].
  change (List.last (b :: l) a = List.last (b :: l) d). apply last_nonempty.
Qed.

Lemma locals_after_nil env frame dsize loc :
  locals_after env frame dsize [] loc = loc.
Proof.
  destruct loc. unfold locals_after, original_regions, working_regions.
  simpl. by rewrite !app_nil_r.
Qed.

Lemma locals_after_cons env frame dsize p rest loc :
  locals_after env frame dsize rest (locals_after env frame dsize [p] loc)
  = locals_after env frame dsize (p :: rest) loc.
Proof.
  unfold locals_after, original_regions, working_regions. simpl.
  rewrite !app_nil_r, <- !app_assoc. f_equal.
  - apply last_cons_default.
  - by destruct rest.
Qed.

Lemma add_events_nil w : add_events w [] = w.
Proof. destruct w. unfold add_events. simpl. by rewrite app_nil_r. Qed.

Lemma add_events_app w e1 e2 :
  add_events (add_events w e1) e2 = add_events w (e1 ++ e2).
Proof. unfold add_events. simpl. by rewrite app_assoc. Qed.

Lemma latch_id env frame d : is_first_frame d = false -> latch env frame d = d.
Proof. unfold latch. by intros ->. Qed.

(** The loop over the models, once the latch has been passed. *)
Lemma detect_loop_latched env frame pairs loc d w :
  is_first_frame d = false ->
  (size (display d)).1 <> 0 -> (size (display d)).2 <> 0 ->
  detect_loop env frame pairs loc d w
  = (Ok (locals_after env frame (size (display d)) pairs loc), d,
     add_events w (loop_events frame false (size (display d)) pairs)).
Proof.
  intros Hf Hx Hy. revert loc w.
  induction pairs as [| [model_cascade color] rest IH]; intros loc w.
  - simpl. by rewrite locals_after_nil, add_events_nil.
  - rewrite detect_loop_cons, (latch_id _ _ _ Hf), Hf.
    destruct (Z.eqb_spec (size (display d)).1 0) as [|_]; [done |].
    destruct (Z.eqb_spec (size (display d)).2 0) as [|_]; [done |].
    cbn [orb]. rewrite IH, locals_after_cons, add_events_app.
    cbn [loop_events]. by rewrite <- app_assoc.
Qed.

(** The loop over the models from any object, with a working resolution
    that has no zero in it. *)
Lemma detect_loop_ok env frame p rest loc d w :
  let d1 := latch env frame d in
  (size (display d1)).1 <> 0 -> (size (display d1)).2 <> 0 ->
  detect_loop env frame (p :: rest) loc d w
  = (Ok (locals_after env frame (size (display d1)) (p :: rest) loc), d1,
     add_events w (loop_events frame (is_first_frame d) (size (display d1))
                     (p :: rest))).
Proof.
  intros d1 Hx Hy. destruct p as [model_cascade color].
  rewrite detect_loop_cons. fold d1.
  destruct (Z.eqb_spec (size (display d1)).1 0) as [|_]; [done |].
  destruct (Z.eqb_spec (size (display d1)).2 0) as [|_]; [done |].
  cbn [orb]. rewrite detect_loop_latched; [| apply latch_latched | done | done].
  rewrite locals_after_cons, add_events_app. cbn [loop_events].
  by rewrite <- app_assoc.
Qed.

(** With a zero in the working resolution the first division raises. *)
Lemma detect_loop_zero env frame p rest loc d w :
  let d1 := latch env frame d in
  (size (display d1)).1 = 0 \/ (size (display d1)).2 = 0 ->
  (detect_loop env frame (p :: rest) loc d w).1
  = (Raise ZeroDivisionError, d1).
Proof.
  intros d1 Hz. destruct p as [model_cascade color].
  rewrite detect_loop_cons. fold d1.
  destruct (Z.eqb_spec (size (display d1)).1 0) as [|Hx]; [done |].
  destruct (Z.eqb_spec (size (display d1)).2 0) as [|Hy]; [done |].
  by destruct Hz.
Qed.

Lemma detect_loop_effect env frame pairs loc d w :
  exists r evs,
    detect_loop env frame pairs loc d w
    = (r, after_loop env frame pairs d, add_events w evs).
Proof.
  revert loc d w. induction pairs as [| [model_cascade color] rest IH];
    intros loc d w.
  - exists (Ok loc), []. simpl. by rewrite add_events_nil.
  - rewrite detect_loop_cons. cbn [after_loop].
    destruct (_ || _); [by eexists _, _ |].
    edestruct IH as (r & evs & ->). exists r. eexists.
    rewrite add_events_app. f_equal. f_equal.
    destruct rest; [done | apply latch_idem].
Qed.

Lemma detect_cases env frame preview d w :
  let d0 := set_start_time_int (Some (now env (clock w))) d in
  let w0 := mkWorld (S (clock w)) (keys w) (trace w) in
  let pairs := zip (models_cascade d) (colors d) in
  let dL := after_loop env frame pairs d0 in
  exists r1 evs,
    detect_loop env frame pairs (mkLocals [] [] RECTANGLE None) d0 w0
    = (r1, dL, add_events w0 evs)
    /\ detect env frame preview d w
       = match r1 with
         | Raise e => (Raise e, dL, add_events w0 evs)
         | Ok loc =>
           match __end_time env dL (add_events w0 evs) with
           | (Ok _, d2, w2) => (detect_result preview loc, d2, w2)
           | (Raise e, d2, w2) => (Raise e, d2, w2)
           end
         end.
Proof.
  intros d0 w0 pairs dL.
  destruct (detect_loop_effect env frame pairs (mkLocals [] [] RECTANGLE None)
              d0 w0) as (r1 & evs & Hloop).
  exists r1, evs. split; [exact Hloop |].
  change (detect env frame preview d w)
    with (bind (detect_loop env frame pairs (mkLocals [] [] RECTANGLE None))
            (fun loc =>
               __end_time env >>
               if negb preview
               then ret (original_frame_regions_list loc, None, None)
               else match processed_frame loc with
                    | None => raise UnboundLocalError
                    | Some pf =>
                      ret (original_frame_regions_list loc, Some pf,
                           Some (processed_frame_regions_list loc))
                    end)
            d0 w0) at 1.
  unfold bind at 1. rewrite Hloop. fold dL.
  destruct r1 as [loc | e]; [| done].
  unfold bind at 1.
  destruct (__end_time env dL (add_events w0 evs)) as [[[[] | e] d2] w2];
    [| done].
  unfold detect_result. destruct (negb preview); [done |].
  by destruct (processed_frame loc).
Qed.

Lemma after_loop_fields env frame pairs d :
  let d' := after_loop env frame pairs d in
  models_cascade d' = models_cascade d /\ video_source d' = video_source d
  /\ image d' = image d /\ start_time_int d' = start_time_int d
  /\ times d' = times d /\ times_index d' = times_index d
  /\ colors d' = colors d.
Proof.
  unfold after_loop, latch.
  destruct pairs; [done |]. by destruct (is_first_frame d).
Qed.

Lemma end_time_display env d w :
  display (__end_time env d w).1.2 = display d.
Proof.
  by destruct (end_time_buffer env d w) as [-> | (buf & v & _ & _ & ->)].
Qed.

(** What a call of [detect] that returns has returned. *)
Lemma detect_returns env frame preview d w regions fp rp d' w' :
  detect env frame preview d w = (Ok (regions, fp, rp), d', w') ->
  let pairs := zip (models_cascade d) (colors d) in
  let dsize := size (display d') in
  regions = original_regions env frame dsize pairs
  /\ (fp, rp) = if preview
                then (Some (processed env frame dsize),
                      Some (working_regions env frame dsize pairs))
                else (None, None).
Proof.
  intros Hdet pairs dsize.
  destruct (detect_cases env frame preview d w) as (r1 & evs & Hloop & Heq).
  rewrite Heq in Hdet. clear Heq. fold pairs in Hloop, Hdet.
  set (d0 := set_start_time_int (Some (now env (clock w))) d) in *.
  set (w0 := mkWorld (S (clock w)) (keys w) (trace w)) in *.
  destruct r1 as [loc | e]; [| done].
  pose proof (end_time_display env (after_loop env frame pairs d0)
                (add_events w0 evs)) as Hdsp.
  destruct (__end_time env (after_loop env frame pairs d0) (add_events w0 evs))
    as [[[[] | e] d2] w2]; [| done].
  injection Hdet as Hres -> ->. simpl in Hdsp.
  assert (Hloc : loc = locals_after env frame dsize pairs
                         (mkLocals [] [] RECTANGLE None)
                 /\ (preview = true -> pairs <> [])).
  { subst dsize. rewrite Hdsp. clear Hdsp. revert Hloop Hres.
    destruct pairs as [| p rest]; intros Hloop Hres.
    - simpl in Hloop. injection Hloop as <- _. split; [done |].
      intros ->. by unfold detect_result in Hres.
    - cbn [after_loop] in *. split; [| done].
      destruct (decide ((size (display (latch env frame d0))).1 = 0)) as [Hx | Hx].
      { pose proof (detect_loop_zero env frame p rest
                      (mkLocals [] [] RECTANGLE None) d0 w0 (or_introl Hx)) as Hz.
        by rewrite Hloop in Hz. }
      destruct (decide ((size (display (latch env frame d0))).2 = 0)) as [Hy | Hy].
      { pose proof (detect_loop_zero env frame p rest
                      (mkLocals [] [] RECTANGLE None) d0 w0 (or_intror Hy)) as Hz.
        by rewrite Hloop in Hz. }
      rewrite (detect_loop_ok env frame p rest _ d0 w0 Hx Hy) in Hloop.
      by injection Hloop as <- _. }
  destruct Hloc as [-> Hne]. unfold detect_result in Hres.
  destruct preview; simpl in Hres.
  - destruct pairs as [| p rest] eqn:Hp; [by destruct Hne |].
    injection Hres as <- <- <-. by split.
  - injection Hres as <- <- <-. by split.
Qed.

Lemma model_shape_spec model_cascade :
  model_shape model_cascade = spec_shape (original_window_size model_cascade).
Proof.
  unfold model_shape, spec_shape, len_set_pair.
  destruct (original_window_size model_cascade) as [a b].
  cbn [fst snd remove_dups].
  destruct (Z.eqb_spec a b) as [-> | Hne]; case_decide as Hin; try done.
  - exfalso. apply Hin, list_elem_of_here.
  - by apply list_elem_of_singleton in Hin.
Qed.

Lemma shapes_of_regions env pf (f : Color -> Shape -> Rect -> Region) pairs :
  (forall c s r, region_shape (f c s r) = s) ->
  map region_shape
    (flat_map (fun mc => map (f mc.2 (model_shape mc.1))
                             (detectMultiScale env mc.1 pf)) pairs)
  = flat_map (fun mc => map (fun _ : Rect =>
                               spec_shape (original_window_size mc.1))
                            (detectMultiScale env mc.1 pf)) pairs.
Proof.
  intros Hf. induction pairs as [| mc l IH]; [done |].
  cbn [flat_map]. rewrite map_app, IH. f_equal.
  rewrite map_map. apply map_ext. intros r.
  by rewrite Hf, model_shape_spec.
Qed.

(** C3: in a call of [detect] that returns, the regions handed back are, in
    order, one per rectangle [(x, y, w, h)] that each model's detector
    reported on the preprocessed frame, with geometry
    [(x*sx, y*sy, w*sx, h*sy)], where [sx] is the width of the original
    frame over the working width and [sy] the height of the original frame
    over the working height; nothing else is applied to the products. *)
Theorem rescaled_region_is_linear env frame preview d w regions fp rp d' w' :
  detect env frame preview d w = (Ok (regions, fp, rp), d', w') ->
  let working := size (display d') in
  let sx := (inject_Z (shape1 frame) / inject_Z working.1)%Q in
  let sy := (inject_Z (shape0 frame) / inject_Z working.2)%Q in
  regions
  = flat_map
      (fun mc =>
         map (fun r : Rect =>
                let '(x, y, w, h) := r in
                mkRegion (inject_Z x * sx) (inject_Z y * sy)
                         (inject_Z w * sx) (inject_Z h * sy)
                         mc.2 (model_shape mc.1))%Q
             (detectMultiScale env mc.1 (processed env frame working)))
      (zip (models_cascade d) (colors d)).
Proof.
  intros Hdet working sx sy.
  destruct (detect_returns _ _ _ _ _ _ _ _ _ _ Hdet) as [-> _].
  reflexivity.
Qed.

(** C7: in a call of [detect] that returns, every region that comes from a
    model carries the shape computed from that model's native detection
    window alone, an ellipse when width and height are equal and a
    rectangle otherwise, in the list for the original frame and in the
    list for the preview; the frame, the object and the world play no part
    in it. *)
Theorem shape_is_function_of_window env frame preview d w regions fp rp d' w' :
  detect env frame preview d w = (Ok (regions, fp, rp), d', w') ->
  let shapes :=
    flat_map
      (fun mc =>
         map (fun _ : Rect => spec_shape (original_window_size mc.1))
             (detectMultiScale env mc.1
                (processed env frame (size (display d')))))
      (zip (models_cascade d) (colors d)) in
  map region_shape regions = shapes
  /\ (forall regions_p, rp = Some regions_p ->
                        map region_shape regions_p = shapes).
Proof.
  intros Hdet shapes.
  destruct (detect_returns _ _ _ _ _ _ _ _ _ _ Hdet) as [-> Hp].
  split.
  - apply (shapes_of_regions env _ (fun c s => original_region c s _ _)).
    by intros c s [[[x y] w0] h].
  - intros regions_p ->. destruct preview; [| done].
    injection Hp as _ ->. apply (shapes_of_regions env _ working_region).
    by intros c s [[[x y] w0] h].
Qed.

(** ** The first-frame latch *)

Lemma first_preprocessed_app tr evs :
  first_preprocessed (tr ++ evs)
  = match first_preprocessed tr with
    | Some f => Some f
    | None => first_preprocessed evs
    end.
Proof. induction tr as [| [] tr IH]; simpl; auto. Qed.

Lemma resizes_app tr evs : resizes (tr ++ evs) = resizes tr ++ resizes evs.
Proof. apply flat_map_app. Qed.

Section LatchInvariant.

Variable env : Env.
Variable display0 : Display.

Lemma latch_inv_quiet d w c ks evs :
  first_preprocessed evs = None -> resizes evs = [] ->
  latch_inv env display0 d w ->
  latch_inv env display0 d (mkWorld c ks (trace w ++ evs)).
Proof.
  unfold latch_inv. simpl. intros Hf Hr.
  rewrite first_preprocessed_app, resizes_app, Hf, Hr, app_nil_r.
  by destruct (first_preprocessed (trace w)).
Qed.

Ltac latch_prims :=
  first
    [ apply stable_emit; intros ? ? ?; by apply latch_inv_quiet
    | apply stable_waitKey; intros ? ? ? ?; by apply latch_inv_quiet
    | apply stable_modify; intros ? ? ?; assumption
    | apply stable_time_time; intros ? ? ?; assumption ].

Lemma latch_end_time : stable (latch_inv env display0) (__end_time env).
Proof. unfold __end_time, logging. stable_with latch_prims. Qed.

Lemma latch_preprocess frame :
  stable (latch_inv env display0) (preprocess env frame).
Proof.
  intros d w H. unfold wp. rewrite preprocess_eq.
  unfold latch_inv, add_events, preprocess_events, latch in *. simpl.
  rewrite first_preprocessed_app, resizes_app.
  destruct (first_preprocessed (trace w)) as [f0 |].
  - destruct H as (Hf & Hd & Hr). rewrite Hf. simpl.
    repeat split; [done | done |].
    apply Forall_app. split; [done |]. rewrite Hd. by repeat constructor.
  - destruct H as (Hf & Hd & Hr). rewrite Hf, Hr. simpl. rewrite Hd.
    repeat split. by repeat constructor.
Qed.

Lemma latch_detect_loop frame pairs loc :
  stable (latch_inv env display0) (detect_loop env frame pairs loc).
Proof.
  revert loc. induction pairs as [| [model_cascade color] rest IH]; intros loc.
  - apply stable_ret.
  - cbn [detect_loop].
    stable_with ltac:(first [apply IH | apply latch_preprocess | latch_prims]).
Qed.

Lemma latch_detect_and_display frame preview :
  stable (latch_inv env display0) (detect_and_display env frame preview).
Proof.
  unfold detect_and_display, display_show, detect, __start_time.
  apply stable_bind.
  - stable_with ltac:(first [apply latch_detect_loop | apply latch_end_time
                            | latch_prims]).
  - intros [[regions frame_p] frame_reg_p]. latch_prims.
Qed.

Lemma latch_read_loop preview frames :
  stable (latch_inv env display0) (read_loop env preview frames).
Proof.
  induction frames as [| frame rest IH]; cbn [read_loop].
  - stable_with latch_prims.
  - stable_with ltac:(first [apply IH | apply latch_detect_and_display
                            | latch_prims]).
Qed.

Lemma latch_start preview : stable (latch_inv env display0) (start env preview).
Proof.
  unfold start, start_capture, report_times, logging.
  stable_with ltac:(first [apply latch_read_loop
                          | apply latch_detect_and_display | latch_prims]).
Qed.

End LatchInvariant.

(** C5: in a run of the program, the working resolution is the size of the
    display as oriented on the first frame that reached [preprocess]: every
    call of [cv.resize] of the run was given that size, whatever the
    dimensions of the frames that followed, and the display still holds it
    when the run ends.  Before any frame is preprocessed nothing is
    resized. *)
Theorem working_resolution_is_latched env src img models preview ks :
  let out := main env src img models preview ks in
  match first_preprocessed (trace out.2) with
  | None => resizes (trace out.2) = []
  | Some frame0 =>
    let working := size (set_orientation env frame0 (new_display env)) in
    Forall (eq working) (resizes (trace out.2))
    /\ size (display out.1.2) = working
    /\ is_first_frame out.1.2 = false
  end.
Proof.
  intros out. subst out. unfold main.
  match goal with
  | |- context [start _ _ ?d0 ?w0] =>
    pose proof (latch_start env (new_display env) preview d0 w0) as H
  end.
  unfold wp, latch_inv in H.
  match type of H with ?P -> _ => assert (HP : P) by done end.
  specialize (H HP). clear HP.
  destruct (first_preprocessed _) as [frame0 |].
  - destruct H as (Hf & Hd & Hr). by rewrite Hd.
  - apply H.
Qed.

(** ** [__end_time], case by case *)

Lemma end_time_camera env d w s t0 :
  video_source d = Some s -> isnumeric s = true ->
  start_time_int d = Some t0 ->
  __end_time env d w = (Ok tt, d, frame_time_logged env w t0).
Proof.
  destruct d as [mods src img st tm i first cols dsp]. simpl.
  intros -> Hs ->.
  unfold __end_time, bind, time_time, gets, lift, logging, emit, modify, ret.
  simpl. by rewrite Hs.
Qed.

Lemma end_time_unallocated env d w s t0 :
  video_source d = Some s -> isnumeric s = false ->
  start_time_int d = Some t0 -> times d = None ->
  __end_time env d w
  = (Raise TypeError, d,
     mkWorld (S (S (clock w))) (keys w) (trace (frame_time_logged env w t0))).
Proof.
  destruct d as [mods src img st tm i first cols dsp]. simpl.
  intros -> Hs -> ->.
  unfold __end_time, bind, time_time, gets, lift, logging, emit, modify, ret.
  simpl. by rewrite Hs.
Qed.

Lemma end_time_store env d w s t0 buf :
  video_source d = Some s -> isnumeric s = false ->
  start_time_int d = Some t0 -> times d = Some buf ->
  (times_index d < length buf)%nat ->
  __end_time env d w
  = (Ok tt,
     set_times_index (S (times_index d))
       (set_times (Some (<[times_index d :=
                           float32 env (now env (S (clock w)) - t0)]> buf)) d),
     mkWorld (S (S (clock w))) (keys w) (trace (frame_time_logged env w t0))).
Proof.
  destruct d as [mods src img st tm i first cols dsp]. simpl.
  intros -> Hs -> -> Hi.
  unfold __end_time, bind, time_time, gets, lift, logging, emit, modify, ret,
    setitem. simpl. rewrite Hs. simpl.
  case_bool_decide; [| lia]. simpl.
  unfold set_times_index, set_times. simpl. by rewrite Nat.add_1_r.
Qed.

(** ** One detection pass, case by case *)

Lemma detect_ready env frame preview d w :
  ready env frame d ->
  let d1 := pass_object env frame d w in
  let w1 := pass_world frame d d1 w in
  detect env frame preview d w
  = match __end_time env d1 w1 with
    | (Ok _, d2, w2) =>
      (detect_result preview (pass_locals env frame d d1), d2, w2)
    | (Raise e, d2, w2) => (Raise e, d2, w2)
    end.
Proof.
  intros Hready d1 w1.
  destruct (detect_cases env frame preview d w) as (r1 & evs & Hloop & ->).
  fold (pass_object env frame d w) in *. fold d1 in Hloop |- *.
  subst w1. unfold pass_world, pass_locals.
  set (d0 := set_start_time_int (Some (now env (clock w))) d) in *.
  set (w0 := mkWorld (S (clock w)) (keys w) (trace w)) in *.
  assert (Hok : detect_loop env frame (zip (models_cascade d) (colors d))
                  (mkLocals [] [] RECTANGLE None) d0 w0
                = (Ok (locals_after env frame (size (display d1))
                         (zip (models_cascade d) (colors d))
                         (mkLocals [] [] RECTANGLE None)), d1,
                   add_events w0
                     (loop_events frame (is_first_frame d) (size (display d1))
                        (zip (models_cascade d) (colors d))))).
  { subst d1. unfold pass_object. fold d0.
    destruct Hready as [Hnil | [Hx Hy]].
    - rewrite Hnil. simpl. by rewrite add_events_nil.
    - destruct (zip (models_cascade d) (colors d)) as [| p rest].
      + simpl. by rewrite add_events_nil.
      + cbn [after_loop].
        assert (Hl : size (display (latch env frame d0))
                     = size (display (latch env frame d))).
        { unfold latch. simpl. by destruct (is_first_frame d). }
        apply (detect_loop_ok env frame p rest _ d0 w0); by rewrite Hl. }
  rewrite Hok in Hloop.
  pose proof (f_equal (fun x => x.1.1) Hloop) as Hr.
  pose proof (f_equal (fun x => x.2) Hloop) as Hw.
  cbn [fst snd] in Hr, Hw. by rewrite <- Hr, <- Hw.
Qed.

Lemma pass_object_fields env frame d w :
  let d1 := pass_object env frame d w in
  video_source d1 = video_source d
  /\ start_time_int d1 = Some (now env (clock w))
  /\ times d1 = times d /\ times_index d1 = times_index d
  /\ models_cascade d1 = models_cascade d /\ colors d1 = colors d.
Proof.
  unfold pass_object.
  destruct (after_loop_fields env frame (zip (models_cascade d) (colors d))
              (set_start_time_int (Some (now env (clock w))) d))
    as (-> & -> & _ & -> & -> & -> & ->).
  done.
Qed.

Lemma pass_object_latched env frame frame' d w :
  ready env frame d ->
  ready env frame' (pass_object env frame d w).
Proof.
  unfold ready, pass_object.
  destruct (pass_object_fields env frame d w) as (_ & _ & _ & _ & Hm & Hc).
  unfold pass_object in Hm, Hc. rewrite Hm, Hc.
  intros Hr. destruct (zip (models_cascade d) (colors d)); [by left |].
  right. destruct Hr as [Hnil | Hnz]; [done |].
  cbn [after_loop]. rewrite latch_idem.
  unfold latch in *. simpl. by destruct (is_first_frame d).
Qed.

Lemma capture_arg_file s :
  isnumeric s = false -> capture_arg (Some s) = Ok (FileName s).
Proof. unfold capture_arg, str_isnumeric. by intros ->. Qed.

(** A pass of a non-camera source on an object without a buffer. *)
Lemma detect_unallocated env frame preview d w s :
  video_source d = Some s -> isnumeric s = false -> times d = None ->
  ready env frame d ->
  wp (detect env frame preview)
     (fun r d' w' => r = Raise TypeError /\ times d' = None
                     /\ clock w' = (3 + clock w)%nat) d w.
Proof.
  intros Hsrc Hs Ht Hready. unfold wp. rewrite (detect_ready _ _ _ _ _ Hready).
  destruct (pass_object_fields env frame d w) as (Hv & Hst & Htm & _).
  rewrite (end_time_unallocated env _ _ s (now env (clock w)));
    [| congruence | done | done | congruence].
  simpl. repeat split. congruence.
Qed.

Lemma main_numeric_untouched env s img models preview ks :
  isnumeric s = true ->
  let out := main env (Some s) img models preview ks in
  untouched env (Some s) (times out.1.2) (times_index out.1.2).
Proof.
  intros Hs out. subst out. unfold main.
  match goal with
  | |- context [start _ _ ?d0 ?w0] =>
    pose proof (buffer_start env d0 (untouched env (Some s))) as H;
    specialize (H (buffer_end_time_numeric env d0 _ s eq_refl Hs));
    specialize (fun Ha => H Ha preview d0 w0)
  end.
  apply H.
  - intros arg buf i Harg HN [-> _]. split; [done |]. right. by exists arg.
  - split; [done |]. split; [done | by left].
Qed.

(** C10: the store of [__end_time] is guarded by the source string, the
    allocation in [start] by the frame count.  With a source that is not
    numeric, opens, reports no positive frame count and delivers a frame,
    the run ends in the first detection pass, at the store, with
    [TypeError]: there is no buffer.  With a numeric source nothing is ever
    stored: the index stays 0 and the buffer, if the capture reported a
    positive count, is exactly as it was allocated. *)
Theorem store_and_allocation_conditions_differ env :
  (forall s models preview ks frame rest,
     isnumeric s = false ->
     cap_opened (VideoCapture env (FileName s)) = true ->
     frames_number env (FileName s) <= 0 ->
     cap_frames (VideoCapture env (FileName s)) = frame :: rest ->
     nonzero (size (set_orientation env frame (new_display env))) ->
     let out := main env (Some s) None models preview ks in
     out.1.1 = Raise TypeError /\ times out.1.2 = None
     /\ clock out.2 = 3%nat)
  /\ (forall s img models preview ks,
        isnumeric s = true ->
        let out := main env (Some s) img models preview ks in
        untouched env (Some s) (times out.1.2) (times_index out.1.2)).
Proof.
  split; [| apply main_numeric_untouched].
  intros s models preview ks frame rest Hs Hopen HN Hframes Hnz out.
  subst out. unfold main.
  match goal with
  | |- context [start _ _ ?d0 ?w0] =>
    change (wp (start env preview)
              (fun r d' w' => r = Raise TypeError /\ times d' = None
                              /\ clock w' = 3%nat) d0 w0)
  end.
  unfold start. wp_head. cbn [image __init__]. wp_head.
  unfold start_capture. wp_head. cbn [video_source __init__].
  rewrite (capture_arg_file _ Hs). wp_head. wp_head.
  fold (frames_number env (FileName s)).
  rewrite (proj2 (Z.ltb_ge _ _) HN), Hopen, Hframes.
  unfold when at 1. wp_head. cbn [negb read_loop].
  apply wp_bind. wp_head. apply wp_bind. unfold detect_and_display.
  apply wp_bind.
  eapply wp_conseq.
  { eapply (detect_unallocated env frame preview _ _ s); [done | done | done |].
    right. exact Hnz. }
  cbv beta. by intros r d' w' (-> & Ht & Hc).
Qed.

(** ** The statistics at the end of the run *)

Lemma written_S env k : written env (S k) = written env k ++ [stored env k].
Proof. unfold written. by rewrite seq_S, map_app. Qed.

Lemma wp_waitKey delay (Q : Res Z -> Dispatcher -> World -> Prop) d w :
  (forall k ks, Q (Ok k) d (mkWorld (clock w) ks (trace w ++ [EvWaitKey delay]))) ->
  wp (waitKey delay) Q d w.
Proof. intros H. unfold wp, waitKey. destruct (keys w); apply H. Qed.

Lemma filled_world env s n d w w' :
  clock w' = clock w -> filled env s n d w -> filled env s n d w'.
Proof. unfold filled. by intros ->. Qed.

Lemma detect_and_display_filled env frame preview s n d w :
  isnumeric s = false -> filled env s n d w ->
  wp (detect_and_display env frame preview)
     (fun r d' w' => r = Ok tt -> filled env s n d' w') d w.
Proof.
  intros Hs (Hsrc & Hclock & buf & Hbuf & Hlen & Htake).
  unfold detect_and_display. apply wp_bind. unfold wp at 1.
  destruct (detect_cases env frame preview d w) as (r1 & evs & _ & ->).
  set (d0 := set_start_time_int (Some (now env (clock w))) d).
  set (w0 := mkWorld (S (clock w)) (keys w) (trace w)).
  set (dL := after_loop env frame (zip (models_cascade d) (colors d)) d0).
  destruct r1 as [loc | e]; [| done].
  destruct (after_loop_fields env frame (zip (models_cascade d) (colors d)) d0)
    as (_ & Hv & _ & Hst & Htm & Hi & _). fold dL in Hv, Hst, Htm, Hi.
  change (video_source d0) with (video_source d) in Hv.
  change (start_time_int d0) with (Some (now env (clock w))) in Hst.
  change (times d0) with (times d) in Htm.
  change (times_index d0) with (times_index d) in Hi.
  destruct (decide (times_index d < length buf)%nat) as [Hlt | Hge].
  - rewrite (end_time_store env dL _ s (now env (clock w)) buf);
      [| congruence | done | done | congruence | congruence].
    cbn [fst snd]. destruct (detect_result preview loc) as [[[rs fp] rp] |];
      [| done].
    unfold display_show. wp_head. intros _.
    split; [simpl; congruence |]. split.
    { simpl. rewrite Hi, Hclock. lia. }
    eexists. split; [done |]. split; [by rewrite length_insert |].
    cbn [times_index set_times_index]. rewrite Hi.
    rewrite (take_S_r _ _ (float32 env (now env (S (S (clock w)))
                                        - now env (clock w))));
      [| by apply list_lookup_insert_eq].
    rewrite take_insert_ge, Htake, written_S; [| done].
    unfold stored. rewrite Hclock.
    by replace (S (S (3 * times_index d))) with (3 * times_index d + 2)%nat
      by lia.
  - pose proof (end_time_past_the_end env dL (add_events w0 evs) buf s
                  (now env (clock w))) as [Hr _];
      [congruence | rewrite Hi; lia | congruence | done | done |].
    destruct (__end_time env dL (add_events w0 evs)) as [[[[] | e] d2] w2];
      [done | done].
Qed.

Lemma read_loop_filled env preview s n frames d w :
  isnumeric s = false -> filled env s n d w ->
  wp (read_loop env preview frames)
     (fun r d' w' => r = Ok tt -> filled env s n d' w') d w.
Proof.
  intros Hs. revert d w. induction frames as [| frame rest IH]; intros d w Hf;
    cbn [read_loop]; wp_head.
  - intros _. by eapply filled_world.
  - apply wp_bind. eapply wp_conseq.
    { apply detect_and_display_filled; [done |]. by eapply filled_world. }
    cbv beta. intros [[] | e] d1 w1 Hf1; [| done].
    apply wp_bind. apply wp_waitKey. intros k ks.
    specialize (Hf1 eq_refl).
    destruct (k =? 27).
    + intros _. by eapply filled_world.
    + apply IH. by eapply filled_world.
Qed.

Lemma Qmax_cases a b :
  (Qmax a b = a \/ Qmax a b = b) /\ (a <= Qmax a b)%Q /\ (b <= Qmax a b)%Q.
Proof.
  unfold Qmax. destruct (Qle_bool a b) eqn:H.
  - apply Qle_bool_iff in H. repeat split; [by right | done | apply Qle_refl].
  - assert (~ (a <= b)%Q) as Hn by (rewrite <- Qle_bool_iff; congruence).
    apply Qnot_le_lt, Qlt_le_weak in Hn.
    repeat split; [by left | apply Qle_refl | done].
Qed.

Lemma Qmin_cases a b :
  (Qmin a b = a \/ Qmin a b = b) /\ (Qmin a b <= a)%Q /\ (Qmin a b <= b)%Q.
Proof.
  unfold Qmin. destruct (Qle_bool a b) eqn:H.
  - apply Qle_bool_iff in H. repeat split; [by left | apply Qle_refl | done].
  - assert (~ (a <= b)%Q) as Hn by (rewrite <- Qle_bool_iff; congruence).
    apply Qnot_le_lt, Qlt_le_weak in Hn.
    repeat split; [by right | done | apply Qle_refl].
Qed.

Lemma foldl_Qmax l x : is_maximum (foldl Qmax x l) (x :: l).
Proof.
  revert x. induction l as [| a l IH]; intros x.
  - split; [by left |]. intros y [<- | []]. apply Qle_refl.
  - cbn [foldl]. destruct (IH (Qmax x a)) as [Hin Hle].
    destruct (Qmax_cases x a) as (Hc & Hx & Ha). split.
    + destruct Hin as [<- | Hin]; [| by right; right].
      destruct Hc as [-> | ->]; [by left | by right; left].
    + intros y [<- | [<- | Hy]].
      * eapply Qle_trans; [exact Hx |]. apply Hle. by left.
      * eapply Qle_trans; [exact Ha |]. apply Hle. by left.
      * apply Hle. by right.
Qed.

Lemma foldl_Qmin l x : is_minimum (foldl Qmin x l) (x :: l).
Proof.
  revert x. induction l as [| a l IH]; intros x.
  - split; [by left |]. intros y [<- | []]. apply Qle_refl.
  - cbn [foldl]. destruct (IH (Qmin x a)) as [Hin Hle].
    destruct (Qmin_cases x a) as (Hc & Hx & Ha). split.
    + destruct Hin as [<- | Hin]; [| by right; right].
      destruct Hc as [-> | ->]; [by left | by right; left].
    + intros y [<- | [<- | Hy]].
      * eapply Qle_trans; [| exact Hx]. apply Hle. by left.
      * eapply Qle_trans; [| exact Ha]. apply Hle. by left.
      * apply Hle. by right.
Qed.

Lemma np_average_mean l a : np_average l = Some a -> is_mean a l.
Proof.
  destruct l as [| x l]; [done |]. intros [= <-]. split; [done |].
  rewrite Qmult_comm. apply Qmult_div_r.
  intros H. unfold Qeq in H. simpl in H. lia.
Qed.

Lemma np_amax_maximum l m : np_amax l = Ok m -> is_maximum m l.
Proof. destruct l; [done |]. intros [= <-]. apply foldl_Qmax. Qed.

Lemma np_amin_minimum l m : np_amin l = Ok m -> is_minimum m l.
Proof. destruct l; [done |]. intros [= <-]. apply foldl_Qmin. Qed.

(** The three log lines, or the exception of the empty slice. *)
Lemma report_times_eq d w buf :
  times d = Some buf ->
  report_times d w
  = let filled := take (times_index d) buf in
    match np_average filled, np_amax filled, np_amin filled with
    | Some avg, Ok mx, Ok mn =>
      (Ok tt, d,
       add_events w [EvLog INFO (AverageTime (Some avg));
                     EvLog INFO (MaxTime mx); EvLog INFO (MinTime mn)])
    | _, _, _ =>
      (Raise ValueError, d, add_events w [EvLog INFO (AverageTime None)])
    end.
Proof.
  intros Hbuf. unfold report_times, bind, gets, lift, logging, emit, slice_to,
    add_events. simpl. rewrite Hbuf. simpl.
  destruct (take (times_index d) buf) as [| x l]; simpl; [done |].
  by rewrite <- !app_assoc.
Qed.

(** C8: in a run on a video source, without an image, that allocated the
    timing buffer and ran to its end, the slice the statistics are taken of
    is [times[:times_index]], and it holds exactly the values the passes of
    the run stored, in order; the three lines logged last carry the mean,
    the maximum and the minimum of these values. *)
Theorem statistics_on_written_prefix env s models preview ks arg :
  capture_arg (Some s) = Ok arg -> 0 < frames_number env arg ->
  let out := main env (Some s) None models preview ks in
  out.1.1 = Ok tt ->
  let k := times_index out.1.2 in
  (exists buf, times out.1.2 = Some buf
     /\ length buf = Z.to_nat (frames_number env arg)
     /\ take k buf = written env k)
  /\ exists tr avg mx mn,
       trace out.2 = tr ++ [EvLog INFO (AverageTime (Some avg));
                            EvLog INFO (MaxTime mx); EvLog INFO (MinTime mn)]
       /\ is_mean avg (written env k)
       /\ is_maximum mx (written env k)
       /\ is_minimum mn (written env k).
Proof.
  intros Harg HN out. subst out. unfold main.
  match goal with
  | |- (start _ _ ?d0 ?w0).1.1 = _ -> ?G =>
    change (wp (start env preview)
              (fun r d' w' =>
                 r = Ok tt ->
                 (exists buf, times d' = Some buf
                    /\ length buf = Z.to_nat (frames_number env arg)
                    /\ take (times_index d') buf = written env (times_index d'))
                 /\ exists tr avg mx mn,
                      trace w' = tr ++ [EvLog INFO (AverageTime (Some avg));
                                        EvLog INFO (MaxTime mx);
                                        EvLog INFO (MinTime mn)]
                      /\ is_mean avg (written env (times_index d'))
                      /\ is_maximum mx (written env (times_index d'))
                      /\ is_minimum mn (written env (times_index d')))
              d0 w0)
  end.
  unfold start. wp_head. cbn [image __init__]. wp_head.
  unfold start_capture. wp_head. cbn [video_source __init__].
  rewrite Harg. wp_head. wp_head. fold (frames_number env arg).
  rewrite (proj2 (Z.ltb_lt 0 _) HN). unfold when. wp_head.
  destruct (cap_opened (VideoCapture env arg)); cbn [negb].
  2: { wp_head. wp_head. done. }
  apply wp_bind.
  match goal with |- wp _ _ ?d1 _ => set (d0 := d1) end.
  destruct (isnumeric s) eqn:Hs.
  - eapply wp_conseq.
    { apply (wp_stable (buffer_inv d0 (fun buf i => i = 0%nat /\ is_Some buf))).
      - apply buffer_read_loop.
        by apply (buffer_end_time_numeric env d0 _ s).
      - by split. }
    cbv beta. intros [[] | e] d1 w1 [_ [Hi [buf Hbuf]]]; [| done].
    unfold wp. rewrite (report_times_eq _ _ _ Hbuf), Hi. by cbn.
  - eapply wp_conseq.
    { apply (read_loop_filled env preview s
               (Z.to_nat (frames_number env arg))); [done |].
      split; [done |]. split; [done |]. eexists. split; [done |].
      split; [apply length_np_empty | done]. }
    cbv beta. intros [[] | e] d1 w1 Hf; [| done].
    destruct (Hf eq_refl) as (Hsrc & Hclock & buf & Hbuf & Hlen & Htake).
    unfold wp. rewrite (report_times_eq _ _ _ Hbuf). cbv zeta.
    rewrite Htake.
    destruct (np_average (written env (times_index d1))) as [avg |] eqn:Ha;
      [| done].
    destruct (np_amax (written env (times_index d1))) as [mx | e] eqn:Hmx;
      [| done].
    destruct (np_amin (written env (times_index d1))) as [mn | e] eqn:Hmn;
      [| done].
    cbn [fst snd]. intros _. split; [by exists buf |].
    exists (trace w1), avg, mx, mn. split; [done |].
    split; [by apply np_average_mean |].
    split; [by apply np_amax_maximum | by apply np_amin_minimum].
Qed.

(** ** A camera run *)

Lemma detect_and_display_camera env frame preview s d w :
  camera s preview d -> ready env frame d ->
  wp (detect_and_display env frame preview)
     (fun r d' w' => r = Ok tt /\ camera s preview d'
                     /\ forall frame', ready env frame' d') d w.
Proof.
  intros (Hsrc & Hs & Hp) Hready. unfold detect_and_display.
  apply wp_bind. unfold wp at 1. rewrite (detect_ready _ _ _ _ _ Hready).
  destruct (pass_object_fields env frame d w) as (Hv & Hst & _ & _ & Hm & Hc).
  rewrite (end_time_camera env _ _ s (now env (clock w)));
    [| congruence | done | done].
  cbn [fst snd].
  assert (Hres : exists x, detect_result preview
                   (pass_locals env frame d (pass_object env frame d w)) = Ok x).
  { unfold detect_result, pass_locals, locals_after.
    destruct preview; [| by eexists]. cbn [negb processed_frame].
    destruct (zip (models_cascade d) (colors d)); [by destruct Hp |].
    by eexists. }
  destruct Hres as [[[rs fp] rp] ->]. unfold display_show. wp_head.
  split; [done |]. split.
  - unfold camera. rewrite Hv, Hm, Hc. done.
  - intros frame'. by apply pass_object_latched.
Qed.

Lemma read_loop_camera env preview s frames d w :
  camera s preview d ->
  match frames with
  | [] => True
  | frame :: _ => ready env frame d
  end ->
  (read_loop env preview frames d w).1.1 = Ok tt.
Proof.
  intros Hcam Hready.
  change (wp (read_loop env preview frames) (fun r _ _ => r = Ok tt) d w).
  revert d w Hcam Hready. induction frames as [| frame rest IH];
    intros d w Hcam Hready; cbn [read_loop]; wp_head; [done |].
  apply wp_bind. eapply wp_conseq.
  { by apply (detect_and_display_camera env frame preview s). }
  cbv beta. intros r d1 w1 (-> & Hcam1 & Hready1).
  apply wp_bind. apply wp_waitKey. intros k ks.
  destruct (k =? 27); [done |].
  apply IH; [done |]. destruct rest; [done | apply Hready1].
Qed.

(** ** Counting external calls *)

Lemma count_app p tr evs : count p (tr ++ evs) = (count p tr + count p evs)%nat.
Proof. unfold count. by rewrite List.filter_app, length_app. Qed.

Lemma count_loop_events frame first dsize pairs :
  count is_preprocess (loop_events frame first dsize pairs) = length pairs.
Proof.
  revert first. induction pairs as [| [m c] rest IH]; intros first; [done |].
  cbn [loop_events]. unfold preprocess_events.
  rewrite !count_app, IH. by destruct first.
Qed.

Lemma end_time_preprocess_count env n :
  stable (fun _ w => count is_preprocess (trace w) = n) (__end_time env).
Proof.
  unfold __end_time, logging.
  stable_with ltac:(first
    [ apply stable_emit; intros ? ? <-; cbn [trace]; rewrite count_app;
      apply Nat.add_0_r
    | apply stable_modify; by intros
    | apply stable_time_time; by intros ]).
Qed.

(** C6, what the code does: in one call of [detect] the preprocessing of
    the frame is run once for every model, not once for the call. *)
Theorem preprocess_runs_once_per_model env frame preview d w :
  ready env frame d ->
  count is_preprocess (trace (detect env frame preview d w).2)
  = (count is_preprocess (trace w)
     + length (zip (models_cascade d) (colors d)))%nat.
Proof.
  intros Hready. rewrite (detect_ready _ _ _ _ _ Hready).
  pose proof (end_time_preprocess_count env
                (count is_preprocess (trace w)
                 + length (zip (models_cascade d) (colors d)))
                (pass_object env frame d w)
                (pass_world frame d (pass_object env frame d w) w)) as H.
  unfold wp in H.
  destruct (__end_time env _ _) as [[[[] | e] d2] w2]; apply H;
    unfold pass_world, add_events; simpl;
    by rewrite count_app, count_loop_events.
Qed.

Lemma preprocess_runs_once_per_model_witness :
  count is_preprocess
    (trace (detect Sample.env (Sample.frame 480 640) false
              (__init__ Sample.env
                 ["data/face.xml"; "data/body.xml"]%string
                 (Some "0"%string) None)
              (mkWorld 0 [] [])).2)
  = 2%nat.
Proof.
  apply (preprocess_runs_once_per_model Sample.env (Sample.frame 480 640) false
           (__init__ Sample.env ["data/face.xml"; "data/body.xml"]%string
              (Some "0"%string) None) (mkWorld 0 [] [])).
  right. by vm_compute.
Defined.

(** The image branch of [start]. *)
Lemma start_with_image env preview d w path :
  image d = Some path -> truthy (Some path) = true ->
  start env preview d w
  = match detect_and_display env (imread env path) preview d
            (add_events w [EvImread path]) with
    | (Ok _, d1, w1) =>
      let w2 := mkWorld (clock w1) (tail (keys w1))
                        (trace w1 ++ [EvWaitKey 0]) in
      if hd (-1) (keys w1) =? 27 then (Ok tt, d1, w2)
      else start_capture env preview d1 w2
    | (Raise e, d1, w1) => (Raise e, d1, w1)
    end.
Proof.
  intros Himg Htruthy.
  change (start env preview d w)
    with (bind (match image d with
                | Some path =>
                  if truthy (image d) then
                    emit (EvImread path) >>
                    detect_and_display env (imread env path) preview >>
                    let* k := waitKey 0 in
                    ret (negb (k =? 27))
                  else ret true
                | None => ret true
                end)
               (fun go_on => if go_on then start_capture env preview
                             else ret tt) d w).
  rewrite Himg, Htruthy. unfold bind at 1 2 3. unfold emit at 1.
  fold (add_events w [EvImread path]).
  destruct (detect_and_display env (imread env path) preview d
              (add_events w [EvImread path])) as [[[[] | e] d1] w1]; [| done].
  unfold bind, waitKey, ret.
  destruct (keys w1) as [| k ks]; [done |]. simpl.
  by destruct (k =? 27).
Qed.

(** C1, what the code does: with an image, after the one detection pass
    and the wait for a key, [start] returns if the key is escape; on any
    other key it goes on exactly as a run on the video source does, from
    the object and the world the image left: it builds the capture and
    enters the read loop. *)
Theorem image_mode_falls_through_to_the_stream env preview d w path d1 w1 :
  image d = Some path -> truthy (Some path) = true ->
  detect_and_display env (imread env path) preview d
    (add_events w [EvImread path]) = (Ok tt, d1, w1) ->
  let after_key ks := mkWorld (clock w1) ks (trace w1 ++ [EvWaitKey 0]) in
  (forall ks, keys w1 = 27 :: ks ->
              start env preview d w = (Ok tt, d1, after_key ks))
  /\ (forall k ks, keys w1 = k :: ks -> k <> 27 ->
                   start env preview d w
                   = start_capture env preview d1 (after_key ks)).
Proof.
  intros Himg Htruthy Hpass after_key.
  rewrite (start_with_image _ _ _ _ _ Himg Htruthy), Hpass.
  split.
  - by intros ks ->.
  - intros k ks -> Hk. cbn [hd tail].
    by destruct (Z.eqb_spec k 27).
Qed.

(** The space bar in the image window, then escape in the stream: the
    camera is opened and one frame is read from it. *)
Lemma image_mode_falls_through_to_the_stream_witness :
  let d := __init__ Sample.env ["data/face.xml"%string]
             (Some "0"%string) (Some "a.png"%string) in
  let w := mkWorld 0 [32; 27] [] in
  let pass := detect_and_display Sample.env (imread Sample.env "a.png") false d
                (add_events w [EvImread "a.png"]) in
  let out := start Sample.env false d w in
  (pass.1.1 = Ok tt /\ keys pass.2 = [32; 27])
  /\ out = start_capture Sample.env false pass.1.2
             (mkWorld (clock pass.2) [27] (trace pass.2 ++ [EvWaitKey 0]))
  /\ out.1.1 = Ok tt
  /\ count is_imread (trace out.2) = 1%nat
  /\ count is_show (trace out.2) = 2%nat
  /\ count is_read (trace out.2) = 1%nat
  /\ In (EvVideoCapture (CamIndex 0)) (trace out.2).
Proof.
  intros d w pass out.
  assert (Hpass : pass = (Ok tt, pass.1.2, pass.2)) by (vm_compute; reflexivity).
  split; [by vm_compute |]. split.
  - apply (proj2 (image_mode_falls_through_to_the_stream Sample.env false d w
                    "a.png" pass.1.2 pass.2 eq_refl eq_refl Hpass) 32 [27]);
      [by vm_compute | discriminate].
  - vm_compute. repeat split; auto 20.
Defined.

(** With escape in the image window the run ends there. *)
Example image_mode_escape :
  let out := main Sample.env (Some "0"%string) (Some "a.png"%string)
               ["face.xml"%string] false [27] in
  out.1.1 = Ok tt
  /\ count is_imread (trace out.2) = 1%nat
  /\ count is_show (trace out.2) = 1%nat
  /\ count is_read (trace out.2) = 0%nat.
Proof. by vm_compute. Qed.

(** The loop over the models reads nothing of the boundaries. *)
Lemma detect_loop_boundaries b env frame pairs loc d w :
  detect_loop (set_boundaries b env) frame pairs loc d w
  = detect_loop env frame pairs loc d w.
Proof.
  revert loc d w. induction pairs as [| [m c] rest IH]; intros loc d w;
    [done |].
  rewrite !detect_loop_cons. cbv zeta.
  change (latch (set_boundaries b env) frame d) with (latch env frame d).
  rewrite IH. reflexivity.
Qed.

Lemma bind_ext {A B} (m1 m2 : M A) (k1 k2 : A -> M B) d w :
  (forall d0 w0, m1 d0 w0 = m2 d0 w0) ->
  (forall a d0 w0, k1 a d0 w0 = k2 a d0 w0) ->
  bind m1 k1 d w = bind m2 k2 d w.
Proof.
  intros Hm Hk. unfold bind. rewrite Hm.
  destruct (m2 d w) as [[[a | e] d1] w1]; [apply Hk | done].
Qed.

Lemma detect_boundaries b env frame preview d w :
  detect (set_boundaries b env) frame preview d w
  = detect env frame preview d w.
Proof.
  unfold detect.
  apply bind_ext; [reflexivity | intros _ d0 w0].
  apply bind_ext; [reflexivity | intros mods d1 w1].
  apply bind_ext; [reflexivity | intros cols d2 w2].
  apply bind_ext; [intros; apply detect_loop_boundaries | intros loc d3 w3].
  reflexivity.
Qed.

(** C9: a call of [detect] returns the same result, and leaves the same
    object and the same world, whatever the boundaries the configuration
    module holds beside it: for any two boundary values, that of the
    missing file among them, which is the empty value and no error. *)
Theorem detection_ignores_boundaries env frame preview d w b1 b2 :
  detect (set_boundaries b1 env) frame preview d w
  = detect (set_boundaries b2 env) frame preview d w
  /\ config_boundarys None = Ok NoBoundaries.
Proof.
  split; [| done]. by rewrite !detect_boundaries.
Qed.

(** ** The theorems at work on the sample environment *)
Lemma rescaled_region_is_linear_witness :
  Sample.pass = (Ok (Sample.regions, None, None), Sample.pass.1.2, Sample.pass.2)
  /\ Sample.regions
     = flat_map
         (fun mc =>
            map (fun r : Rect =>
                   let '(x, y, w, h) := r in
                   mkRegion (inject_Z x * (inject_Z 640 / inject_Z 320))
                            (inject_Z y * (inject_Z 480 / inject_Z 240))
                            (inject_Z w * (inject_Z 640 / inject_Z 320))
                            (inject_Z h * (inject_Z 480 / inject_Z 240))
                            mc.2 (model_shape mc.1))%Q
                (detectMultiScale Sample.env mc.1
                   (processed Sample.env (Sample.frame 480 640) (320, 240))))
         (zip (models_cascade Sample.disp) (colors Sample.disp)).
Proof.
  assert (H : Sample.pass
              = (Ok (Sample.regions, None, None), Sample.pass.1.2, Sample.pass.2))
    by (vm_compute; reflexivity).
  split; [exact H |].
  exact (rescaled_region_is_linear Sample.env (Sample.frame 480 640) false
           Sample.disp Sample.world0 Sample.regions None None
           Sample.pass.1.2 Sample.pass.2 H).
Defined.

Lemma shape_is_function_of_window_witness :
  Sample.pass = (Ok (Sample.regions, None, None), Sample.pass.1.2, Sample.pass.2)
  /\ map region_shape Sample.regions = [ELLIPSE; ELLIPSE; RECTANGLE].
Proof.
  assert (H : Sample.pass
              = (Ok (Sample.regions, None, None), Sample.pass.1.2, Sample.pass.2))
    by (vm_compute; reflexivity).
  split; [exact H |].
  exact (proj1 (shape_is_function_of_window Sample.env (Sample.frame 480 640)
                  false Sample.disp Sample.world0 Sample.regions None None
                  Sample.pass.1.2 Sample.pass.2 H)).
Defined.

Lemma statistics_on_written_prefix_witness :
  let out := main Sample.env (Some "clip.avi"%string) None ["face.xml"%string]
               false [] in
  capture_arg (Some "clip.avi"%string) = Ok (FileName "clip.avi")
  /\ 0 < frames_number Sample.env (FileName "clip.avi")
  /\ out.1.1 = Ok tt
  /\ (exists buf, times out.1.2 = Some buf
        /\ length buf = 2%nat /\ take 2 buf = written Sample.env 2)
  /\ exists tr avg mx mn,
       trace out.2 = tr ++ [EvLog INFO (AverageTime (Some avg));
                            EvLog INFO (MaxTime mx); EvLog INFO (MinTime mn)]
       /\ is_mean avg (written Sample.env 2)
       /\ is_maximum mx (written Sample.env 2)
       /\ is_minimum mn (written Sample.env 2).
Proof.
  intros out.
  assert (H1 : capture_arg (Some "clip.avi"%string) = Ok (FileName "clip.avi"))
    by reflexivity.
  assert (H2 : 0 < frames_number Sample.env (FileName "clip.avi"))
    by reflexivity.
  assert (H3 : out.1.1 = Ok tt) by (vm_compute; reflexivity).
  split; [exact H1 |]. split; [exact H2 |]. split; [exact H3 |].
  exact (statistics_on_written_prefix Sample.env "clip.avi"%string
           ["face.xml"%string] false [] (FileName "clip.avi") H1 H2 H3).
Defined.

Lemma store_and_allocation_conditions_differ_witness :
  (let out := main Sample.env (Some "rtsp://cam"%string) None
                ["face.xml"%string] false [] in
   out.1.1 = Raise TypeError /\ times out.1.2 = None /\ clock out.2 = 3%nat)
  /\ (let out := main Sample.env (Some "0"%string) None ["face.xml"%string]
                   false [] in
      untouched Sample.env (Some "0"%string)
                (times out.1.2) (times_index out.1.2)).
Proof.
  split.
  - apply (proj1 (store_and_allocation_conditions_differ Sample.env)
             "rtsp://cam"%string ["face.xml"%string] false []
             (Sample.frame 480 640) []);
      [reflexivity | reflexivity | by vm_compute | reflexivity
      | by vm_compute].
  - apply (proj2 (store_and_allocation_conditions_differ Sample.env)
             "0"%string None ["face.xml"%string] false []).
    reflexivity.
Defined.

(** * Further properties of the code *)

(** ** Invariants of a whole run *)

Section RunInvariant.

Variable env : Env.
Variable I : Dispatcher -> World -> Prop.

(** [I] is kept by [preprocess], by the assignments to the timing
    attributes, by a change of clock or keys, and by the events [quiet]
    accepts. *)
Hypothesis I_preprocess : forall frame, stable I (preprocess env frame).
Hypothesis I_start_time_int : forall d w t, I d w -> I (set_start_time_int t d) w.
Hypothesis I_times : forall d w b, I d w -> I (set_times b d) w.
Hypothesis I_times_index : forall d w i, I d w -> I (set_times_index i d) w.
Hypothesis I_clock : forall d w c ks, I d w -> I d (mkWorld c ks (trace w)).

Variable quiet : Event -> bool.
Hypothesis I_event : forall d w e,
  quiet e = true -> I d w -> I d (add_events w [e]).

Hypothesis quiet_detect : forall m, quiet (EvDetectMultiScale m) = true.
Hypothesis quiet_frame_time : forall lvl t, quiet (EvLog lvl (FrameTime t)) = true.
Hypothesis quiet_show : forall f rs fp rp, quiet (EvShow f rs fp rp) = true.
Hypothesis quiet_wait : forall delay, quiet (EvWaitKey delay) = true.
Hypothesis quiet_read : quiet EvCapRead = true.
Hypothesis quiet_imread : forall path, quiet (EvImread path) = true.

Ltac run_prims :=
  first
    [ apply stable_emit; intros ? ? ?; apply I_event; [done | assumption]
    | apply stable_waitKey; intros ? ? ? ?;
      apply (I_clock _ (add_events _ [_])); apply I_event; [done | assumption]
    | apply stable_modify; intros ? ? ?;
      first [by apply I_start_time_int | by apply I_times
            | by apply I_times_index]
    | apply stable_time_time; intros ? ? ?; by apply I_clock ].

Lemma run_end_time : stable I (__end_time env).
Proof. unfold __end_time, logging. stable_with run_prims. Qed.

Lemma run_detect_loop frame pairs loc :
  stable I (detect_loop env frame pairs loc).
Proof.
  revert loc. induction pairs as [| [model_cascade color] rest IH]; intros loc.
  - apply stable_ret.
  - cbn [detect_loop].
    stable_with ltac:(first [apply IH | apply I_preprocess | run_prims]).
Qed.

Lemma run_detect frame preview : stable I (detect env frame preview).
Proof.
  unfold detect, __start_time.
  stable_with ltac:(first [apply run_detect_loop | apply run_end_time
                          | run_prims]).
Qed.

Lemma run_detect_and_display frame preview :
  stable I (detect_and_display env frame preview).
Proof.
  unfold detect_and_display, display_show.
  apply stable_bind; [apply run_detect |].
  intros [[regions frame_p] frame_reg_p]. run_prims.
Qed.

Lemma run_read_loop preview frames :
  stable I (read_loop env preview frames).
Proof.
  induction frames as [| frame rest IH]; cbn [read_loop].
  - stable_with run_prims.
  - stable_with ltac:(first [apply IH | apply run_detect_and_display
                            | run_prims]).
Qed.

(** The image branch of [start], up to the decision to go on. *)
Lemma run_image_branch preview (img : option string) :
  stable I
    (match img with
     | Some path =>
       if truthy img then
         emit (EvImread path) >>
         detect_and_display env (imread env path) preview >>
         let* k := waitKey 0 in
         ret (negb (k =? 27))
       else ret true
     | None => ret true
     end).
Proof.
  stable_with ltac:(first [apply run_detect_and_display | run_prims]).
Qed.

Hypothesis quiet_capture : forall arg, quiet (EvVideoCapture arg) = true.
Hypothesis quiet_cant_open : forall lvl, quiet (EvLog lvl CantOpen) = true.
Hypothesis I_report : stable I report_times.

Lemma run_start preview : stable I (start env preview).
Proof.
  unfold start, start_capture, logging.
  stable_with ltac:(first [apply run_read_loop | apply run_detect_and_display
                          | apply I_report | run_prims]).
Qed.

End RunInvariant.

Lemma count_one p e : count p [e] = if p e then 1%nat else 0%nat.
Proof. unfold count. simpl. by destruct (p e). Qed.

(** X3: whatever a run does, and however it ends, the cascades, the
    colours paired with them, the source and the image of the dispatcher
    are at the end what the constructor made them. *)
Theorem configuration_is_never_reassigned env src img models preview ks :
  let out := main env src img models preview ks in
  models_cascade out.1.2 = map (load_cascade env) (map (model_path env) models)
  /\ video_source out.1.2 = src
  /\ image out.1.2 = img
  /\ colors out.1.2 = random_colors env (length models).
Proof.
  intros out. subst out. unfold main.
  match goal with
  | |- context [start _ _ ?d0 ?w0] =>
    pose proof (run_start env (fun d _ => same_config d0 d)) as H;
    specialize (fun H1 H2 H3 H4 H5 H6 H7 H8 H9 H10 H11 H12 H13 H14 H15 =>
      H H1 H2 H3 H4 H5 (fun _ => true) H6 H7 H8 H9 H10 H11 H12 H13 H14 H15
        preview d0 w0);
    assert (Hc : same_config d0 (start env preview d0 w0).1.2)
  end.
  { apply H; try done.
    - intros frame d w Hd. unfold wp. by rewrite preprocess_eq; unfold latch;
        destruct (is_first_frame d).
    - unfold report_times, logging.
      stable_with ltac:(apply stable_emit; by intros). }
  destruct Hc as (Hm & Hs & Hi & Hcol). rewrite Hm, Hs, Hi, Hcol.
  cbn [models_cascade video_source image colors __init__].
  by rewrite length_map.
Qed.

Lemma count_preprocess_events p frame first dsize :
  p (EvCvtColor frame) = false -> p (EvResize dsize) = false ->
  p EvEqualizeHist = false ->
  count p (preprocess_events frame first dsize)
  = if first && p (EvSetOrientation frame) then 1%nat else 0%nat.
Proof.
  intros H1 H2 H3. unfold preprocess_events.
  change (count p ([EvCvtColor frame]
                   ++ (if first then [EvSetOrientation frame] else [])
                   ++ [EvResize dsize] ++ [EvEqualizeHist])
          = if first && p (EvSetOrientation frame) then 1%nat else 0%nat).
  rewrite !count_app, !count_one, H1, H2, H3.
  destruct first; [| done]. rewrite count_one. cbn [andb].
  destruct (p (EvSetOrientation frame)); lia.
Qed.

(** X4: a run on a capture that reports no positive frame count, as a
    camera does, never logs an average, a maximum or a minimum, however
    many frames it processes and however it ends. *)
Theorem no_statistics_without_frame_count env src img models preview ks :
  (forall arg, capture_arg src = Ok arg -> frames_number env arg <= 0) ->
  let out := main env src img models preview ks in
  count is_statistic (trace out.2) = 0%nat.
Proof.
  intros HN out. subst out. unfold main.
  set (I := fun (d : Dispatcher) (w : World) =>
              video_source d = src /\ count is_statistic (trace w) = 0%nat).
  match goal with
  | |- context [start _ _ ?d0 ?w0] =>
    assert (HI : wp (start env preview) (fun _ d w => I d w) d0 w0);
      [| apply HI]
  end.
  assert (Hev : forall d w e, negb (is_statistic e) = true -> I d w ->
                              I d (add_events w [e])).
  { intros d w e He [Hs Hc]. split; [done |]. cbn [trace add_events].
    rewrite count_app, Hc, count_one. by destruct (is_statistic e). }
  assert (Hpre : forall frame, stable I (preprocess env frame)).
  { intros frame d w [Hs Hc]. unfold wp. rewrite preprocess_eq. split.
    - unfold latch. by destruct (is_first_frame d).
    - cbn [snd trace add_events].
      rewrite count_app, Hc, count_preprocess_events by done.
      by rewrite andb_false_r. }
  assert (Hloop : forall frames, stable I (read_loop env preview frames)).
  { intros frames. by apply (run_read_loop env I) with (quiet := negb ∘ is_statistic). }
  assert (Himg : forall img0, stable I
    (match img0 with
     | Some path =>
       if truthy img0 then
         emit (EvImread path) >>
         detect_and_display env (imread env path) preview >>
         let* k := waitKey 0 in
         ret (negb (k =? 27))
       else ret true
     | None => ret true
     end)).
  { intros img0.
    by apply (run_image_branch env I) with (quiet := negb ∘ is_statistic). }
  unfold start. wp_head. apply wp_bind.
  eapply wp_conseq; [apply (Himg _); by split |].
  cbv beta. intros [[|] | e] d1 w1 HI1; [| done | done].
  unfold start_capture. wp_head. destruct HI1 as [Hsrc Hc]. rewrite Hsrc.
  destruct (capture_arg src) as [arg | e] eqn:Harg; wp_head; [| by split].
  wp_head. fold (frames_number env arg).
  rewrite (proj2 (Z.ltb_ge _ _) (HN arg eq_refl)). unfold when. wp_head.
  assert (HI2 : I d1 (mkWorld (clock w1) (keys w1)
                        (trace w1 ++ [EvVideoCapture arg]))).
  { by apply (Hev d1 w1 (EvVideoCapture arg)). }
  destruct (cap_opened (VideoCapture env arg)); cbn [negb].
  - apply wp_bind. eapply wp_conseq; [by apply Hloop |].
    cbv beta. by intros [[] | e].
  - wp_head. wp_head. by apply (Hev _ _ (EvLog ERROR CantOpen)).
Qed.

(** X5: in a run, [Display.set_orientation] is called at most once: not at
    all while no frame has been preprocessed, and otherwise exactly once,
    on the first frame that was. *)
Theorem display_is_oriented_once env src img models preview ks :
  let out := main env src img models preview ks in
  List.filter is_set_orientation (trace out.2)
  = match first_preprocessed (trace out.2) with
    | None => []
    | Some frame0 => [EvSetOrientation frame0]
    end.
Proof.
  intros out. subst out. unfold main.
  set (I := fun (d : Dispatcher) (w : World) =>
              match first_preprocessed (trace w) with
              | None => is_first_frame d = true
                        /\ List.filter is_set_orientation (trace w) = []
              | Some frame0 =>
                is_first_frame d = false
                /\ List.filter is_set_orientation (trace w)
                   = [EvSetOrientation frame0]
              end).
  match goal with
  | |- context [start _ _ ?d0 ?w0] =>
    assert (HI : wp (start env preview) (fun _ d w => I d w) d0 w0)
  end.
  { apply (run_start env I)
      with (quiet := fun e => negb (is_set_orientation e || is_preprocess e));
      try done.
    - intros frame d w HI. unfold wp. rewrite preprocess_eq.
      unfold I in *. cbn [fst snd trace add_events].
      rewrite first_preprocessed_app, List.filter_app.
      unfold preprocess_events, latch.
      destruct (first_preprocessed (trace w)) as [f0 |];
        destruct HI as [Hf ->]; rewrite Hf; by cbn.
    - intros d w e He HI. unfold I in *. cbn [trace add_events].
      rewrite first_preprocessed_app, List.filter_app.
      destruct e; try done;
        destruct (first_preprocessed (trace w)); cbn;
        by rewrite app_nil_r.
    - unfold report_times, logging.
      stable_with ltac:(apply stable_emit; intros d w HI; unfold I in *;
        cbn [trace]; rewrite first_preprocessed_app, List.filter_app;
        destruct (first_preprocessed (trace w)); cbn;
        by rewrite app_nil_r). }
  unfold wp, I in HI.
  destruct (first_preprocessed _); apply HI.
Qed.

(** ** One pass, exactly *)

Lemma rescale_working color shp sx sy r :
  rescale sx sy (working_region color shp r) = original_region color shp sx sy r.
Proof. by destruct r as [[[x y] w] h]. Qed.

Lemma original_from_working env frame dsize pairs :
  original_regions env frame dsize pairs
  = map (rescale (scale_x frame dsize) (scale_y frame dsize))
        (working_regions env frame dsize pairs).
Proof.
  unfold original_regions, working_regions.
  induction pairs as [| mc pairs IH]; [done |].
  cbn [flat_map]. rewrite map_app, <- IH. f_equal.
  rewrite map_map. apply map_ext. intros r. by rewrite rescale_working.
Qed.

(** X6: when [detect] is asked for the preview and returns, the second
    list it hands back holds the detections in working space, the frame is
    the preprocessed one, and the first list is the second one scaled,
    region by region in the same order, with colour and shape kept. *)
Theorem preview_regions_correspond env frame d w regions fp rp d' w' :
  detect env frame true d w = (Ok (regions, fp, rp), d', w') ->
  let working := size (display d') in
  exists regions_p,
    rp = Some regions_p
    /\ fp = Some (processed env frame working)
    /\ regions = map (rescale (scale_x frame working) (scale_y frame working))
                     regions_p
    /\ length regions = length regions_p.
Proof.
  intros Hdet working.
  destruct (detect_returns _ _ _ _ _ _ _ _ _ _ Hdet) as [-> [= -> ->]].
  eexists. split; [done |]. split; [done |].
  rewrite original_from_working. split; [done | by rewrite length_map].
Qed.

Lemma preview_regions_correspond_witness :
  let out := detect Sample.env (Sample.frame 480 640) true Sample.disp
               Sample.world0 in
  exists rs fp rp,
    out = (Ok (rs, fp, rp), out.1.2, out.2)
    /\ exists regions_p,
         rp = Some regions_p
         /\ fp = Some (processed Sample.env (Sample.frame 480 640) (320, 240))
         /\ rs = map (rescale (scale_x (Sample.frame 480 640) (320, 240))
                              (scale_y (Sample.frame 480 640) (320, 240)))
                     regions_p
         /\ length rs = length regions_p.
Proof.
  intros out.
  exists (match out.1.1 with Ok (rs, _, _) => rs | Raise _ => [] end),
         (match out.1.1 with Ok (_, fp, _) => fp | Raise _ => None end),
         (match out.1.1 with Ok (_, _, rp) => rp | Raise _ => None end).
  assert (H : out = (Ok (match out.1.1 with Ok (rs, _, _) => rs | Raise _ => [] end,
                         match out.1.1 with Ok (_, fp, _) => fp | Raise _ => None end,
                         match out.1.1 with Ok (_, _, rp) => rp | Raise _ => None end),
                     out.1.2, out.2)) by (vm_compute; reflexivity).
  split; [exact H |].
  exact (preview_regions_correspond Sample.env (Sample.frame 480 640)
           Sample.disp Sample.world0 _ _ _ _ _ H).
Defined.

Lemma pass_camera_eq env frame preview s d w :
  camera s preview d -> ready env frame d ->
  let d1 := pass_object env frame d w in
  exists rs fp rp,
    detect_and_display env frame preview d w
    = (Ok tt, d1,
       add_events (frame_time_logged env (pass_world frame d d1 w)
                     (now env (clock w)))
                  [EvShow frame rs fp rp]).
Proof.
  intros (Hsrc & Hs & Hp) Hready d1.
  unfold detect_and_display, bind. rewrite (detect_ready _ _ _ _ _ Hready).
  destruct (pass_object_fields env frame d w) as (Hv & Hst & _ & _ & Hm & Hc).
  fold d1 in Hv, Hst |- *.
  rewrite (end_time_camera env d1 _ s (now env (clock w)));
    [| congruence | done | done].
  assert (Hres : exists x, detect_result preview
                   (pass_locals env frame d d1) = Ok x).
  { unfold detect_result, pass_locals, locals_after.
    destruct preview; [| by eexists]. cbn [negb processed_frame].
    destruct (zip (models_cascade d) (colors d)); [by destruct Hp |].
    by eexists. }
  destruct Hres as [[[rs fp] rp] ->]. by exists rs, fp, rp.
Qed.

Lemma pass_store_eq env frame preview s d w buf :
  bounded s preview d -> ready env frame d ->
  times d = Some buf -> (times_index d < length buf)%nat ->
  let d1 := pass_object env frame d w in
  let w1 := pass_world frame d d1 w in
  exists rs fp rp,
    detect_and_display env frame preview d w
    = (Ok tt,
       set_times_index (S (times_index d))
         (set_times (Some (<[times_index d :=
                             float32 env (now env (S (S (clock w)))
                                          - now env (clock w))]> buf)) d1),
       add_events
         (mkWorld (S (S (S (clock w)))) (keys w)
                  (trace (frame_time_logged env w1 (now env (clock w)))))
         [EvShow frame rs fp rp]).
Proof.
  intros (Hsrc & Hs & Hp) Hready Hbuf Hi d1 w1.
  unfold detect_and_display, bind. rewrite (detect_ready _ _ _ _ _ Hready).
  destruct (pass_object_fields env frame d w)
    as (Hv & Hst & Htm & Hidx & Hm & Hc).
  fold d1 in Hv, Hst, Htm, Hidx |- *. fold w1.
  rewrite (end_time_store env d1 w1 s (now env (clock w)) buf);
    [| congruence | done | done | congruence | congruence].
  rewrite Hidx.
  assert (Hres : exists x, detect_result preview
                   (pass_locals env frame d d1) = Ok x).
  { unfold detect_result, pass_locals, locals_after.
    destruct preview; [| by eexists]. cbn [negb processed_frame].
    destruct (zip (models_cascade d) (colors d)); [by destruct Hp |].
    by eexists. }
  destruct Hres as [[[rs fp] rp] ->]. by exists rs, fp, rp.
Qed.

Lemma count_loop_events_quiet p frame first dsize pairs :
  quiet_in_detect p -> count p (loop_events frame first dsize pairs) = 0%nat.
Proof.
  intros (H1 & H2 & H3 & H4 & H5 & _). revert first.
  induction pairs as [| [m c] rest IH]; intros first; [done |].
  cbn [loop_events].
  rewrite !count_app, IH, count_one, H5, count_preprocess_events by done.
  rewrite H2. by rewrite andb_false_r.
Qed.

Lemma count_pass p env frame d d1 w t0 :
  quiet_in_detect p ->
  count p (trace (frame_time_logged env (pass_world frame d d1 w) t0))
  = count p (trace w).
Proof.
  intros Hq. cbn [trace frame_time_logged pass_world add_events].
  rewrite !count_app, count_loop_events_quiet, count_one by done.
  destruct Hq as (_ & _ & _ & _ & _ & ->). lia.
Qed.

Lemma quiet_is_show : quiet_in_detect is_show.
Proof. by repeat split. Qed.

Lemma quiet_is_read : quiet_in_detect is_read.
Proof. by repeat split. Qed.

Lemma quiet_is_wait : quiet_in_detect is_wait.
Proof. by repeat split. Qed.

Lemma quiet_is_statistic : quiet_in_detect is_statistic.
Proof. by repeat split. Qed.

Lemma camera_pass_object env frame preview s d w :
  camera s preview d -> camera s preview (pass_object env frame d w).
Proof.
  intros (Hsrc & Hs & Hp).
  destruct (pass_object_fields env frame d w) as (Hv & _ & _ & _ & Hm & Hc).
  unfold camera. by rewrite Hv, Hm, Hc.
Qed.

(** X7: a pass of a non-camera source whose buffer has room reads the clock
    three times: the duration it logs ends at the second reading, the
    duration it stores, in the slot at [times_index] and no other, ends at
    the third; the index moves on by one and no key press is consumed. *)
Theorem pass_logs_then_stores env frame preview s d w buf :
  bounded s preview d -> ready env frame d ->
  times d = Some buf -> (times_index d < length buf)%nat ->
  let out := detect_and_display env frame preview d w in
  let t0 := now env (clock w) in
  out.1.1 = Ok tt
  /\ times out.1.2
     = Some (<[times_index d := float32 env (now env (2 + clock w) - t0)]> buf)
  /\ times_index out.1.2 = S (times_index d)
  /\ clock out.2 = (3 + clock w)%nat
  /\ keys out.2 = keys w
  /\ In (EvLog INFO (FrameTime (now env (1 + clock w) - t0))) (trace out.2).
Proof.
  intros Hb Hready Hbuf Hi out t0. subst out.
  destruct (pass_store_eq env frame preview s d w buf Hb Hready Hbuf Hi)
    as (rs & fp & rp & ->).
  cbn [fst snd times times_index set_times set_times_index clock keys
       add_events trace frame_time_logged pass_world].
  repeat split. rewrite !in_app_iff. left. right. by left.
Qed.

Lemma pass_logs_then_stores_witness :
  let d := set_times (Some [1000; 1000]%Q)
             (__init__ Sample.env ["data/face.xml"%string]
                (Some "clip.avi"%string) None) in
  let out := detect_and_display Sample.env (Sample.frame 480 640) false d
               Sample.world0 in
  out.1.1 = Ok tt
  /\ times out.1.2 = Some [4; 1000]%Q
  /\ times_index out.1.2 = 1%nat
  /\ clock out.2 = 3%nat
  /\ keys out.2 = []
  /\ In (EvLog INFO (FrameTime (1 - 0))) (trace out.2).
Proof.
  intros d out.
  apply (pass_logs_then_stores Sample.env (Sample.frame 480 640) false
           "clip.avi" d Sample.world0 [1000; 1000]%Q).
  - by repeat split.
  - right. by vm_compute.
  - reflexivity.
  - cbn. lia.
Defined.

(** X8: a pass on a camera source of a dispatcher that has no model to
    run: nothing is preprocessed, so the latch stays open and the display
    is not oriented; without the preview the frame is shown with no
    region, with the preview the pass ends in [UnboundLocalError], after
    the duration was logged and before anything is shown. *)
Theorem pass_without_models env frame preview s d w :
  zip (models_cascade d) (colors d) = [] ->
  video_source d = Some s -> isnumeric s = true ->
  let out := detect_and_display env frame preview d w in
  let logged := EvLog INFO (FrameTime (now env (1 + clock w) - now env (clock w))) in
  out.1.1 = (if preview then Raise UnboundLocalError else Ok tt)
  /\ is_first_frame out.1.2 = is_first_frame d
  /\ display out.1.2 = display d
  /\ trace out.2
     = trace w ++ logged :: (if preview then []
                             else [EvShow frame [] None None]).
Proof.
  intros Hnil Hsrc Hs out logged. subst out logged.
  unfold detect_and_display, bind.
  rewrite (detect_ready env frame preview d w (or_introl Hnil)).
  destruct (pass_object_fields env frame d w) as (Hv & Hst & _).
  rewrite (end_time_camera env _ _ s (now env (clock w)));
    [| congruence | done | done].
  unfold pass_locals, pass_world, pass_object. rewrite Hnil.
  cbn [after_loop loop_events]. rewrite locals_after_nil.
  unfold detect_result. destruct preview; cbn.
  - by rewrite app_nil_r.
  - by rewrite app_nil_r, <- app_assoc.
Qed.

Lemma pass_without_models_witness :
  let d := __init__ Sample.env [] (Some "0"%string) None in
  let out := detect_and_display Sample.env (Sample.frame 480 640) true d
               Sample.world0 in
  out.1.1 = Raise UnboundLocalError
  /\ is_first_frame out.1.2 = true
  /\ display out.1.2 = mkDisplay (0, 0)
  /\ trace out.2 = [EvLog INFO (FrameTime (1 - 0))].
Proof.
  intros d out.
  exact (pass_without_models Sample.env (Sample.frame 480 640) true "0" d
           Sample.world0 eq_refl eq_refl eq_refl).
Defined.

(** ** The read loop, exactly *)

Ltac tally_eq :=
  repeat match goal with |- (_, _) = (_, _) => f_equal end; lia.

Lemma tally_app tr evs :
  tally (tr ++ evs)
  = ((tally tr).1.1.1 + (tally evs).1.1.1, (tally tr).1.1.2 + (tally evs).1.1.2,
     (tally tr).1.2 + (tally evs).1.2, (tally tr).2 + (tally evs).2)%nat.
Proof. unfold tally. by rewrite !count_app. Qed.

Lemma tally_pass env frame d d1 w t0 rs fp rp :
  tally (trace (add_events (frame_time_logged env (pass_world frame d d1 w) t0)
                  [EvShow frame rs fp rp]))
  = (S (count is_show (trace w)), count is_read (trace w),
     count is_wait (trace w), count is_statistic (trace w)).
Proof.
  unfold tally. cbn [trace add_events]. rewrite !count_app.
  rewrite !count_pass
    by first [apply quiet_is_show | apply quiet_is_read | apply quiet_is_wait
             | apply quiet_is_statistic].
  rewrite !count_one. cbn. tally_eq.
Qed.

Lemma read_loop_step env preview frame rest d w :
  read_loop env preview (frame :: rest) d w
  = match detect_and_display env frame preview d
            (add_events w [EvCapRead]) with
    | (Ok _, d2, w2) =>
      let w3 := mkWorld (clock w2) (tail (keys w2))
                        (trace w2 ++ [EvWaitKey 1]) in
      if hd (-1) (keys w2) =? 27 then (Ok tt, d2, w3)
      else read_loop env preview rest d2 w3
    | (Raise e, d2, w2) => (Raise e, d2, w2)
    end.
Proof.
  cbn [read_loop]. unfold bind at 1. unfold emit at 1.
  fold (add_events w [EvCapRead]). unfold bind at 1.
  destruct (detect_and_display env frame preview d (add_events w [EvCapRead]))
    as [[[[] | e] d2] w2]; [| done].
  unfold bind, waitKey, ret.
  destruct (keys w2) as [| k ks]; [done |]. cbn [hd tail].
  by destruct (k =? 27).
Qed.

Lemma read_loop_end env preview d w :
  read_loop env preview [] d w = (Ok tt, d, add_events w [EvCapRead]).
Proof. done. Qed.

Lemma drop_tail {A} n (l : list A) : drop n (tail l) = drop (S n) l.
Proof. destruct l; cbn [tail]; [by rewrite !drop_nil | done]. Qed.

Lemma read_loop_camera_tally env preview s frames d w :
  camera s preview d ->
  match frames with
  | [] => True
  | frame :: _ => ready env frame d
  end ->
  let out := read_loop env preview frames d w in
  out.1.1 = Ok tt
  /\ keys out.2 = drop (passes frames (keys w)) (keys w)
  /\ tally (trace out.2)
     = (count is_show (trace w) + passes frames (keys w),
        count is_read (trace w) + reads frames (keys w),
        count is_wait (trace w) + passes frames (keys w),
        count is_statistic (trace w))%nat.
Proof.
  revert d w. induction frames as [| frame rest IH]; intros d w Hcam Hready;
    cbv zeta.
  - rewrite read_loop_end. cbn [fst snd keys add_events trace passes reads drop].
    rewrite tally_app. split; [done |]. split; [done |].
    unfold tally. cbn. tally_eq.
  - rewrite read_loop_step.
    destruct (pass_camera_eq env frame preview s d (add_events w [EvCapRead])
                Hcam Hready) as (rs & fp & rp & ->).
    set (d1 := pass_object env frame d _).
    pose proof (tally_pass env frame d d1 (add_events w [EvCapRead])
                  (now env (clock (add_events w [EvCapRead]))) rs fp rp) as Ht.
    match type of Ht with
    | tally (trace ?w') = _ => set (w2 := w') in *
    end.
    assert (Hk : keys w2 = keys w) by done.
    assert (Ht' : tally (trace w2)
                  = (S (count is_show (trace w)), S (count is_read (trace w)),
                     count is_wait (trace w), count is_statistic (trace w))).
    { rewrite Ht. cbn [trace add_events]. rewrite !count_app, !count_one.
      cbn. tally_eq. }
    clear Ht. clearbody w2. cbv zeta. rewrite Hk.
    assert (Hcam1 : camera s preview d1) by by apply camera_pass_object.
    assert (Hready1 : match rest with
                      | [] => True
                      | frame' :: _ => ready env frame' d1
                      end).
    { destruct rest; [done |]. by apply pass_object_latched. }
    cbn [passes reads].
    destruct (hd (-1) (keys w) =? 27).
    + cbn [fst snd keys trace]. split; [done |].
      split; [apply (drop_tail 0) |].
      rewrite tally_app, Ht'. cbn. tally_eq.
    + destruct (IH d1 (mkWorld (clock w2) (tail (keys w))
                         (trace w2 ++ [EvWaitKey 1])) Hcam1 Hready1)
        as (Hr & Hks & Htl).
      cbn [keys trace] in Hks, Htl.
      split; [done |]. split.
      { rewrite Hks. apply drop_tail. }
      rewrite Htl, !count_app, !count_one.
      unfold tally in Ht'. injection Ht' as -> -> -> ->. cbn. tally_eq.
Qed.

Lemma passes_le_reads frames ks : reads frames ks = S (passes frames ks)
                                  \/ reads frames ks = passes frames ks.
Proof.
  revert ks. induction frames as [| f rest IH]; intros ks; [by left |].
  cbn [passes reads]. destruct (hd (-1) ks =? 27); [by right |].
  destruct (IH (tail ks)) as [-> | ->]; [by left | by right].
Qed.

Lemma passes_escape frames pre post :
  Forall (fun k => k <> 27) pre -> (length pre < length frames)%nat ->
  passes frames (pre ++ 27 :: post) = S (length pre)
  /\ reads frames (pre ++ 27 :: post) = S (length pre)
  /\ drop (S (length pre)) (pre ++ 27 :: post) = post.
Proof.
  revert frames. induction pre as [| k pre IH]; intros frames Hpre Hlen.
  - destruct frames as [| f rest]; [cbn in Hlen; lia |]. done.
  - destruct frames as [| f rest]; [cbn in Hlen; lia |].
    apply Forall_cons in Hpre as [Hk Hpre]. cbn [length] in Hlen.
    cbn [passes reads app hd tail length].
    destruct (Z.eqb_spec k 27) as [| _]; [done |].
    destruct (IH rest Hpre) as (-> & -> & Hd); [lia |]. done.
Qed.

Lemma passes_no_escape frames ks :
  Forall (fun k => k <> 27) ks ->
  passes frames ks = length frames /\ reads frames ks = S (length frames).
Proof.
  revert ks. induction frames as [| f rest IH]; intros ks Hks; [done |].
  cbn [passes reads length].
  assert (Hhd : (hd (-1) ks =? 27) = false).
  { destruct Hks as [| k ks Hk _]; [done |]. by apply Z.eqb_neq. }
  rewrite Hhd. destruct (IH (tail ks)) as [-> ->]; [| done].
  destruct Hks; [constructor | done].
Qed.

(** X9: a run on a camera that opens.  It returns; the frames shown, the
    calls of [cap.read] and the key polls are counted by the frames the
    capture delivers and the position of the first escape among the key
    presses: escape after the pass on frame number [n] ends the loop
    there, with [n] frames read and shown and the later key presses left
    unread; without an escape every frame is shown and one more read finds
    the end of the stream. *)
Theorem escape_ends_the_stream env s models preview ks arg :
  isnumeric s = true -> capture_arg (Some s) = Ok arg ->
  cap_opened (VideoCapture env arg) = true ->
  frames_number env arg <= 0 ->
  let frames := cap_frames (VideoCapture env arg) in
  match frames with
  | [] => True
  | frame :: _ => nonzero (size (set_orientation env frame (new_display env)))
  end ->
  (preview = true ->
   zip (map (load_cascade env) (map (model_path env) models))
       (random_colors env (length (map (model_path env) models))) <> []) ->
  let out := main env (Some s) None models preview ks in
  out.1.1 = Ok tt
  /\ count is_show (trace out.2) = passes frames ks
  /\ count is_read (trace out.2) = reads frames ks
  /\ count is_wait (trace out.2) = passes frames ks
  /\ keys out.2 = drop (passes frames ks) ks
  /\ (forall pre post,
        ks = pre ++ 27 :: post -> Forall (fun k => k <> 27) pre ->
        (length pre < length frames)%nat ->
        count is_show (trace out.2) = S (length pre)
        /\ count is_read (trace out.2) = S (length pre)
        /\ keys out.2 = post)
  /\ (Forall (fun k => k <> 27) ks ->
      count is_show (trace out.2) = length frames
      /\ count is_read (trace out.2) = S (length frames)).
Proof.
  intros Hs Harg Hopen HN frames Hnz Hp out.
  assert (H : out.1.1 = Ok tt
              /\ keys out.2 = drop (passes frames ks) ks
              /\ tally (trace out.2)
                 = (passes frames ks, reads frames ks, passes frames ks, 0%nat)).
  { subst out. unfold main.
    match goal with
    | |- context [start _ _ ?d0 ?w0] =>
      change (wp (start env preview)
                (fun r d' w' =>
                   r = Ok tt /\ keys w' = drop (passes frames ks) ks
                   /\ tally (trace w')
                      = (passes frames ks, reads frames ks, passes frames ks,
                         0%nat)) d0 w0)
    end.
    unfold start. wp_head. cbn [image __init__]. wp_head.
    unfold start_capture. wp_head. cbn [video_source __init__].
    rewrite Harg. wp_head. wp_head. fold (frames_number env arg).
    rewrite (proj2 (Z.ltb_ge _ _) HN), Hopen. unfold when. wp_head.
    cbn [negb]. apply wp_bind. unfold wp at 1.
    match goal with
    | |- context [read_loop env preview ?fs ?d1 ?w1] =>
      destruct (read_loop_camera_tally env preview s fs d1 w1)
        as (Hr & Hk & Ht)
    end.
    { done. }
    { fold frames. destruct frames; [done | by right]. }
    fold frames in Hr, Hk, Ht |- *. rewrite Hr. wp_head.
    cbn [keys trace clock] in Hk, Ht |- *.
    split; [done |]. split; [done |]. rewrite Ht. by cbn. }
  destruct H as (Hr & Hk & Ht). unfold tally in Ht.
  injection Ht as Hshow Hread Hwait _.
  repeat split; try done.
  - destruct (passes_escape frames pre post) as (Hpa & _); [done | done |].
    subst ks. by rewrite Hshow.
  - destruct (passes_escape frames pre post) as (_ & Hre & _); [done | done |].
    subst ks. by rewrite Hread.
  - destruct (passes_escape frames pre post) as (Hpa & _ & Hd); [done | done |].
    subst ks. by rewrite Hk, Hpa.
  - rewrite Hshow. by apply passes_no_escape.
  - rewrite Hread. by apply passes_no_escape.
Qed.

Lemma escape_ends_the_stream_witness :
  let out := main Sample.env (Some "0"%string) None ["face.xml"%string] false
               [27; 32] in
  out.1.1 = Ok tt
  /\ count is_show (trace out.2) = 1%nat
  /\ count is_read (trace out.2) = 1%nat
  /\ count is_wait (trace out.2) = 1%nat
  /\ keys out.2 = [32].
Proof.
  intros out.
  assert (HN : frames_number Sample.env (CamIndex 0) <= 0) by by vm_compute.
  assert (Hnz : nonzero (size (set_orientation Sample.env (Sample.frame 480 640)
                                 (new_display Sample.env)))) by by vm_compute.
  pose proof (escape_ends_the_stream Sample.env "0" ["face.xml"%string] false
                [27; 32] (CamIndex 0) eq_refl eq_refl eq_refl HN Hnz) as H.
  destruct H as (H1 & H2 & H3 & H4 & H5 & _); [discriminate |].
  exact (conj H1 (conj H2 (conj H3 (conj H4 H5)))).
Defined.

(** ** A run on a file, exactly *)

Lemma end_time_overrun env d w s t0 buf :
  video_source d = Some s -> isnumeric s = false ->
  start_time_int d = Some t0 -> times d = Some buf ->
  (length buf <= times_index d)%nat ->
  __end_time env d w
  = (Raise IndexError, d,
     mkWorld (S (S (clock w))) (keys w) (trace (frame_time_logged env w t0))).
Proof.
  destruct d as [mods src img st tm i first cols dsp]. simpl.
  intros -> Hs -> -> Hi.
  unfold __end_time, bind, time_time, gets, lift, logging, emit, modify, ret,
    setitem. simpl. rewrite Hs. simpl.
  case_bool_decide; [lia | done].
Qed.

Lemma pass_overrun_eq env frame preview s d w buf :
  bounded s preview d -> ready env frame d ->
  times d = Some buf -> (length buf <= times_index d)%nat ->
  let d1 := pass_object env frame d w in
  detect_and_display env frame preview d w
  = (Raise IndexError, d1,
     mkWorld (S (S (S (clock w)))) (keys w)
       (trace (frame_time_logged env (pass_world frame d d1 w)
                 (now env (clock w))))).
Proof.
  intros (Hsrc & Hs & Hp) Hready Hbuf Hi d1.
  unfold detect_and_display, bind. rewrite (detect_ready _ _ _ _ _ Hready).
  destruct (pass_object_fields env frame d w)
    as (Hv & Hst & Htm & Hidx & Hm & Hc).
  fold d1 in Hv, Hst, Htm, Hidx |- *.
  by rewrite (end_time_overrun env d1 _ s (now env (clock w)) buf);
    [| congruence | done | done | congruence | congruence].
Qed.

Lemma bounded_after_store env frame preview s d w i buf :
  bounded s preview d ->
  bounded s preview
    (set_times_index i (set_times buf (pass_object env frame d w))).
Proof.
  intros (Hsrc & Hs & Hp).
  destruct (pass_object_fields env frame d w) as (Hv & _ & _ & _ & Hm & Hc).
  unfold bounded. cbn. by rewrite Hv, Hm, Hc.
Qed.

Lemma ready_after_store env frame frame' d w i buf :
  ready env frame d ->
  ready env frame'
    (set_times_index i (set_times buf (pass_object env frame d w))).
Proof.
  intros Hr. pose proof (pass_object_latched env frame frame' d w Hr) as H.
  unfold ready, latch in *. cbn in *.
  destruct (is_first_frame (pass_object env frame d w)); exact H.
Qed.

(** The loop of a non-camera source from a buffer with [room] free slots:
    it returns when the passes fit, and otherwise ends at the store of the
    pass after the last one that fitted. *)
Lemma read_loop_bounded env preview s frames d w buf :
  bounded s preview d ->
  match frames with
  | [] => True
  | frame :: _ => ready env frame d
  end ->
  times d = Some buf -> (times_index d <= length buf)%nat ->
  let out := read_loop env preview frames d w in
  let p := passes frames (keys w) in
  let room := (length buf - times_index d)%nat in
  (exists buf', times out.1.2 = Some buf' /\ length buf' = length buf)
  /\ ((p <= room)%nat ->
      out.1.1 = Ok tt /\ times_index out.1.2 = (times_index d + p)%nat
      /\ tally (trace out.2)
         = (count is_show (trace w) + p, count is_read (trace w)
            + reads frames (keys w), count is_wait (trace w) + p,
            count is_statistic (trace w))%nat)
  /\ ((room < p)%nat ->
      out.1.1 = Raise IndexError /\ times_index out.1.2 = length buf
      /\ tally (trace out.2)
         = (count is_show (trace w) + room, count is_read (trace w) + S room,
            count is_wait (trace w) + room,
            count is_statistic (trace w))%nat).
Proof.
  revert d w buf. induction frames as [| frame rest IH];
    intros d w buf Hb Hready Hbuf Hi; cbv zeta.
  - rewrite read_loop_end. cbn [fst snd keys add_events trace passes reads].
    split; [by exists buf |]. split; [| lia].
    intros _. split; [done |]. split; [lia |].
    rewrite tally_app. unfold tally. cbn. tally_eq.
  - rewrite read_loop_step. cbn [passes reads].
    destruct (decide (times_index d < length buf)%nat) as [Hlt | Hge].
    + destruct (pass_store_eq env frame preview s d (add_events w [EvCapRead])
                  buf Hb Hready Hbuf Hlt) as (rs & fp & rp & ->).
      set (d1 := pass_object env frame d _).
      pose proof (tally_pass env frame d d1 (add_events w [EvCapRead])
                    (now env (clock (add_events w [EvCapRead]))) rs fp rp) as Ht.
      match goal with
      | |- context [set_times_index _ (set_times (Some ?b) d1)] =>
        set (buf1 := b)
      end.
      set (d2 := set_times_index (S (times_index d)) (set_times (Some buf1) d1)).
      match goal with
      | |- context [add_events ?w1 [EvShow frame rs fp rp]] =>
        change (trace (add_events
                         (frame_time_logged env
                            (pass_world frame d d1 (add_events w [EvCapRead]))
                            (now env (clock (add_events w [EvCapRead]))))
                         [EvShow frame rs fp rp]))
          with (trace (add_events w1 [EvShow frame rs fp rp])) in Ht;
        set (w2 := add_events w1 [EvShow frame rs fp rp]) in *
      end.
      assert (Hk : keys w2 = keys w) by done.
      assert (Ht' : tally (trace w2)
                    = (S (count is_show (trace w)), S (count is_read (trace w)),
                       count is_wait (trace w), count is_statistic (trace w))).
      { rewrite Ht. cbn [trace add_events]. rewrite !count_app, !count_one.
        cbn. tally_eq. }
      clear Ht. clearbody w2.
      assert (Hlen1 : length buf1 = length buf) by apply length_insert.
      assert (Hb2 : bounded s preview d2) by by apply bounded_after_store.
      assert (Hready2 : match rest with
                        | [] => True
                        | frame' :: _ => ready env frame' d2
                        end).
      { destruct rest; [done |]. by apply ready_after_store. }
      assert (Hbuf2 : times d2 = Some buf1) by done.
      assert (Hi2 : times_index d2 = S (times_index d)) by done.
      clearbody d2 buf1. cbv zeta. rewrite Hk.
      destruct (hd (-1) (keys w) =? 27).
      * cbn [fst snd keys trace]. split; [by exists buf1 |]. split; [| lia].
        intros _. split; [done |]. split; [lia |].
        rewrite tally_app, Ht'. cbn. tally_eq.
      * destruct (IH d2 (mkWorld (clock w2) (tail (keys w))
                           (trace w2 ++ [EvWaitKey 1])) buf1 Hb2 Hready2 Hbuf2)
          as ((buf' & Hbuf' & Hlen') & Hfit & Hover); [lia |].
        cbn [keys trace] in Hfit, Hover. rewrite Hi2, Hlen1 in Hfit, Hover.
        unfold tally in Ht'. injection Ht' as Hs1 Hs2 Hs3 Hs4.
        split; [exists buf'; split; [done | lia] |]. split.
        -- intros Hp. destruct Hfit as (Hr & Hidx & Htl); [lia |].
           split; [done |]. split; [lia |].
           rewrite Htl, !count_app, !count_one, Hs1, Hs2, Hs3, Hs4.
           cbn. tally_eq.
        -- intros Hp. destruct Hover as (Hr & Hidx & Htl); [lia |].
           split; [done |]. split; [lia |].
           rewrite Htl, !count_app, !count_one, Hs1, Hs2, Hs3, Hs4.
           cbn. tally_eq.
    + rewrite (pass_overrun_eq env frame preview s d (add_events w [EvCapRead])
                 buf Hb Hready Hbuf) by lia.
      destruct (pass_object_fields env frame d (add_events w [EvCapRead]))
        as (_ & _ & Htm & Hidx & _).
      cbn [fst snd]. split; [exists buf; by rewrite Htm |]. split; [lia |].
      intros _. split; [done |]. split; [rewrite Hidx; lia |].
      unfold tally. cbn [trace].
      rewrite !count_pass
        by first [apply quiet_is_show | apply quiet_is_read
                 | apply quiet_is_wait | apply quiet_is_statistic].
      cbn [trace add_events]. rewrite !count_app, !count_one. cbn.
      replace (length buf - times_index d)%nat with 0%nat by lia. tally_eq.
Qed.

Lemma take_nonempty {A} (l : list A) n :
  (0 < n)%nat -> (n <= length l)%nat -> take n l <> [].
Proof.
  intros Hn Hl Ht. apply (f_equal length) in Ht.
  rewrite length_take in Ht. cbn in Ht. lia.
Qed.

(** A run on a file that opens and reports a positive frame count, up to
    the end of the read loop and through the report. *)
Lemma file_run env s models preview ks :
  isnumeric s = false ->
  cap_opened (VideoCapture env (FileName s)) = true ->
  0 < frames_number env (FileName s) ->
  let frames := cap_frames (VideoCapture env (FileName s)) in
  match frames with
  | [] => True
  | frame :: _ => nonzero (size (set_orientation env frame (new_display env)))
  end ->
  (preview = true ->
   zip (map (load_cascade env) (map (model_path env) models))
       (random_colors env (length (map (model_path env) models))) <> []) ->
  let out := main env (Some s) None models preview ks in
  let p := passes frames ks in
  let n := Z.to_nat (frames_number env (FileName s)) in
  ((0 < p <= n)%nat ->
   out.1.1 = Ok tt /\ times_index out.1.2 = p
   /\ tally (trace out.2) = (p, reads frames ks, p, 3%nat))
  /\ ((n < p)%nat ->
      out.1.1 = Raise IndexError /\ times_index out.1.2 = n
      /\ tally (trace out.2) = (n, S n, n, 0%nat)).
Proof.
  intros Hs Hopen HN frames Hnz Hp out p n. subst out. unfold main.
  match goal with
  | |- context [start _ _ ?d0 ?w0] =>
    change (wp (start env preview)
              (fun r d' w' =>
                 ((0 < p <= n)%nat ->
                  r = Ok tt /\ times_index d' = p
                  /\ tally (trace w') = (p, reads frames ks, p, 3%nat))
                 /\ ((n < p)%nat ->
                     r = Raise IndexError /\ times_index d' = n
                     /\ tally (trace w') = (n, S n, n, 0%nat))) d0 w0)
  end.
  unfold start. wp_head. cbn [image __init__]. wp_head.
  unfold start_capture. wp_head. cbn [video_source __init__].
  rewrite (capture_arg_file _ Hs). wp_head. wp_head.
  fold (frames_number env (FileName s)).
  rewrite (proj2 (Z.ltb_lt 0 _) HN), Hopen. unfold when. wp_head.
  cbn [negb]. apply wp_bind. unfold wp at 1.
  match goal with
  | |- context [read_loop env preview ?fs ?d1 ?w1] =>
    destruct (read_loop_bounded env preview s fs d1 w1
                (np_empty env (frames_number env (FileName s))))
      as ((buf' & Hbuf' & Hlen') & Hfit & Hover);
      [done | fold frames; destruct frames; [done | by right] | done
      | cbn; lia |];
    set (res := read_loop env preview fs d1 w1) in *
  end.
  fold frames in Hfit, Hover. cbn [keys trace times_index set_times __init__]
    in Hfit, Hover.
  rewrite length_np_empty in Hlen', Hfit, Hover. fold n p in Hlen', Hfit, Hover.
  rewrite Nat.sub_0_r in Hfit, Hover.
  destruct (decide (p <= n)%nat) as [Hle | Hgt].
  - destruct (Hfit Hle) as (Hr & Hidx & Ht). rewrite Hr.
    unfold wp. rewrite (report_times_eq _ _ _ Hbuf'). cbv zeta.
    split; [| lia]. intros [Hpos _].
    pose proof (take_nonempty buf' (times_index res.1.2)) as Hne.
    destruct (take (times_index res.1.2) buf') as [| x l];
      [exfalso; apply Hne; [lia | lia | done] |].
    cbn [np_average np_amax np_amin fst snd add_events trace].
    split; [done |]. split; [lia |].
    rewrite tally_app, Ht. cbn. tally_eq.
  - destruct (Hover ltac:(lia)) as (Hr & Hidx & Ht). rewrite Hr.
    split; [lia |]. intros _. split; [done |]. split; [done |].
    rewrite Ht. cbn. tally_eq.
Qed.

(** X10: a file that opens and reports [n] > 0 frames, and whose read loop
    makes between 1 and [n] passes (the frames delivered, or fewer when
    escape is pressed): the run returns, [times_index] is the number of
    passes, as many frames were shown, and the average, the maximum and
    the minimum are logged, once each. *)
Theorem file_run_counts_its_passes env s models preview ks :
  isnumeric s = false ->
  cap_opened (VideoCapture env (FileName s)) = true ->
  0 < frames_number env (FileName s) ->
  let frames := cap_frames (VideoCapture env (FileName s)) in
  match frames with
  | [] => True
  | frame :: _ => nonzero (size (set_orientation env frame (new_display env)))
  end ->
  (preview = true ->
   zip (map (load_cascade env) (map (model_path env) models))
       (random_colors env (length (map (model_path env) models))) <> []) ->
  (0 < passes frames ks <= Z.to_nat (frames_number env (FileName s)))%nat ->
  let out := main env (Some s) None models preview ks in
  out.1.1 = Ok tt
  /\ times_index out.1.2 = passes frames ks
  /\ count is_show (trace out.2) = passes frames ks
  /\ count is_read (trace out.2) = reads frames ks
  /\ count is_statistic (trace out.2) = 3%nat.
Proof.
  intros Hs Hopen HN frames Hnz Hp Hfit out.
  destruct (file_run env s models preview ks Hs Hopen HN Hnz Hp) as [H _].
  destruct (H Hfit) as (Hr & Hi & Ht). unfold tally in Ht.
  injection Ht as H1 H2 _ H4.
  exact (conj Hr (conj Hi (conj H1 (conj H2 H4)))).
Qed.

Lemma file_run_counts_its_passes_witness :
  let out := main Sample.env (Some "clip.avi"%string) None ["face.xml"%string]
               false [27] in
  out.1.1 = Ok tt
  /\ times_index out.1.2 = 1%nat
  /\ count is_show (trace out.2) = 1%nat
  /\ count is_read (trace out.2) = 1%nat
  /\ count is_statistic (trace out.2) = 3%nat.
Proof.
  intros out.
  assert (HN : 0 < frames_number Sample.env (FileName "clip.avi"))
    by by vm_compute.
  assert (Hnz : nonzero (size (set_orientation Sample.env (Sample.frame 480 640)
                                 (new_display Sample.env)))) by by vm_compute.
  assert (Hfit : (0 < 1 <= 2)%nat) by lia.
  exact (file_run_counts_its_passes Sample.env "clip.avi" ["face.xml"%string]
           false [27] eq_refl eq_refl HN Hnz
           (fun H => False_ind _ (Bool.diff_false_true H)) Hfit).
Defined.

(** X11: a file that opens and reports [n] > 0 frames but whose read loop
    goes on to a pass number [n]+1 (more frames delivered than reported,
    and no escape in time): the run ends in that pass with [IndexError],
    at the store; [n] timings were stored and [n] frames shown, the frame
    of the failing pass is not shown, and no statistics are logged. *)
Theorem file_run_overruns env s models preview ks :
  isnumeric s = false ->
  cap_opened (VideoCapture env (FileName s)) = true ->
  0 < frames_number env (FileName s) ->
  let frames := cap_frames (VideoCapture env (FileName s)) in
  match frames with
  | [] => True
  | frame :: _ => nonzero (size (set_orientation env frame (new_display env)))
  end ->
  (preview = true ->
   zip (map (load_cascade env) (map (model_path env) models))
       (random_colors env (length (map (model_path env) models))) <> []) ->
  let n := Z.to_nat (frames_number env (FileName s)) in
  (n < passes frames ks)%nat ->
  let out := main env (Some s) None models preview ks in
  out.1.1 = Raise IndexError /\ exit_status out.1.1 = 1
  /\ times_index out.1.2 = n
  /\ count is_show (trace out.2) = n
  /\ count is_read (trace out.2) = S n
  /\ count is_statistic (trace out.2) = 0%nat.
Proof.
  intros Hs Hopen HN frames Hnz Hp n Hover out.
  destruct (file_run env s models preview ks Hs Hopen HN Hnz Hp) as [_ H].
  destruct (H Hover) as (Hr & Hi & Ht). unfold tally in Ht.
  injection Ht as H1 H2 _ H4.
  refine (conj Hr (conj _ (conj Hi (conj H1 (conj H2 H4))))).
  subst out. by rewrite Hr.
Qed.

Lemma file_run_overruns_witness :
  let out := main Sample.env (Some "long.avi"%string) None ["face.xml"%string]
               false [] in
  out.1.1 = Raise IndexError /\ exit_status out.1.1 = 1
  /\ times_index out.1.2 = 1%nat
  /\ count is_show (trace out.2) = 1%nat
  /\ count is_read (trace out.2) = 2%nat
  /\ count is_statistic (trace out.2) = 0%nat.
Proof.
  intros out.
  assert (HN : 0 < frames_number Sample.env (FileName "long.avi"))
    by by vm_compute.
  assert (Hnz : nonzero (size (set_orientation Sample.env (Sample.frame 480 640)
                                 (new_display Sample.env)))) by by vm_compute.
  assert (Hover : (1 < 2)%nat) by lia.
  exact (file_run_overruns Sample.env "long.avi" ["face.xml"%string]
           false [] eq_refl eq_refl HN Hnz
           (fun H => False_ind _ (Bool.diff_false_true H)) Hover).
Defined.

(** X12: a capture that opens and reports a positive frame count but
    delivers no frame: the slice the statistics are taken of is empty, the
    average is logged as not a number, and the run ends with [ValueError]
    at the maximum; the status of the process is 1. *)
Theorem run_without_frames_fails env s models preview ks arg :
  capture_arg (Some s) = Ok arg ->
  cap_opened (VideoCapture env arg) = true ->
  0 < frames_number env arg ->
  cap_frames (VideoCapture env arg) = [] ->
  let out := main env (Some s) None models preview ks in
  out.1.1 = Raise ValueError /\ exit_status out.1.1 = 1
  /\ trace out.2 = [EvVideoCapture arg; EvCapRead;
                    EvLog INFO (AverageTime None)].
Proof.
  intros Harg Hopen HN Hframes out. subst out. unfold main.
  match goal with
  | |- context [start _ _ ?d0 ?w0] =>
    change (wp (start env preview)
              (fun r d' w' =>
                 r = Raise ValueError /\ exit_status r = 1
                 /\ trace w' = [EvVideoCapture arg; EvCapRead;
                                EvLog INFO (AverageTime None)]) d0 w0)
  end.
  unfold start. wp_head. cbn [image __init__]. wp_head.
  unfold start_capture. wp_head. cbn [video_source __init__].
  rewrite Harg. wp_head. wp_head. fold (frames_number env arg).
  rewrite (proj2 (Z.ltb_lt 0 _) HN), Hopen, Hframes. unfold when. wp_head.
  cbn [negb read_loop]. apply wp_bind. wp_head. wp_head.
  unfold wp. by rewrite (report_times_eq _ _ (np_empty env (frames_number env arg))).
Qed.

Lemma run_without_frames_fails_witness :
  let env := mkEnv (now Sample.env) (imread Sample.env) (cvtColor Sample.env)
               (resize Sample.env) (equalizeHist Sample.env)
               (detectMultiScale Sample.env) (load_cascade Sample.env)
               (fun _ => mkCapture true (inject_Z 5) [])
               (garbage Sample.env) (float32 Sample.env)
               (new_display Sample.env) (set_orientation Sample.env)
               (random_colors Sample.env) (model_path Sample.env)
               (boundaries Sample.env) in
  let out := main env (Some "broken.avi"%string) None ["face.xml"%string]
               false [] in
  out.1.1 = Raise ValueError /\ exit_status out.1.1 = 1
  /\ trace out.2 = [EvVideoCapture (FileName "broken.avi"); EvCapRead;
                    EvLog INFO (AverageTime None)].
Proof.
  intros env out.
  apply (run_without_frames_fails env "broken.avi" ["face.xml"%string] false []
           (FileName "broken.avi")); by vm_compute.
Defined.

(** X13: a numeric source, a camera, whose capture reports a positive
    frame count: the buffer is allocated and never written, so a run
    without image does not return normally, whatever the frames and the
    keys. *)
Theorem camera_with_frame_count_never_returns env s models preview ks arg :
  isnumeric s = true -> capture_arg (Some s) = Ok arg ->
  0 < frames_number env arg ->
  (main env (Some s) None models preview ks).1.1 <> Ok tt.
Proof.
  intros Hs Harg HN. unfold main.
  match goal with
  | |- (start _ _ ?d0 ?w0).1.1 <> _ =>
    change (wp (start env preview) (fun r _ _ => r <> Ok tt) d0 w0)
  end.
  unfold start. wp_head. cbn [image __init__]. wp_head.
  unfold start_capture. wp_head. cbn [video_source __init__].
  rewrite Harg. wp_head. wp_head. fold (frames_number env arg).
  rewrite (proj2 (Z.ltb_lt 0 _) HN). unfold when. wp_head.
  destruct (cap_opened (VideoCapture env arg)); cbn [negb].
  2: { wp_head. by wp_head. }
  apply wp_bind.
  match goal with |- wp _ _ ?d1 _ => set (d0 := d1) end.
  eapply wp_conseq.
  { apply (wp_stable (buffer_inv d0 (fun buf i => i = 0%nat /\ is_Some buf))).
    - apply buffer_read_loop. by apply (buffer_end_time_numeric env d0 _ s).
    - by split. }
  cbv beta. intros [[] | e] d1 w1 [_ [Hi [buf Hbuf]]]; [| done].
  unfold wp. rewrite (report_times_eq _ _ _ Hbuf), Hi. by cbn.
Qed.

Lemma camera_with_frame_count_never_returns_witness :
  let env := mkEnv (now Sample.env) (imread Sample.env) (cvtColor Sample.env)
               (resize Sample.env) (equalizeHist Sample.env)
               (detectMultiScale Sample.env) (load_cascade Sample.env)
               (fun _ => mkCapture true (inject_Z 5) [Sample.frame 480 640])
               (garbage Sample.env) (float32 Sample.env)
               (new_display Sample.env) (set_orientation Sample.env)
               (random_colors Sample.env) (model_path Sample.env)
               (boundaries Sample.env) in
  (main env (Some "0"%string) None ["face.xml"%string] false []).1.1 <> Ok tt.
Proof.
  intros env.
  apply (camera_with_frame_count_never_returns env "0" ["face.xml"%string]
           false [] (CamIndex 0)); by vm_compute.
Defined.

Lemma quiet_is_imread : quiet_in_detect is_imread.
Proof. by repeat split. Qed.

Lemma quiet_is_capture : quiet_in_detect is_capture.
Proof. by repeat split. Qed.

(** X14: image mode with a numeric source, as the default one, and escape
    as the key pressed in the image window: the run returns after one pass
    over the image, which is read once and shown once; no capture is
    opened and no frame read, one key press is consumed, and nothing is
    stored. *)
Theorem image_run_ends_on_escape env s path models preview ks :
  isnumeric s = true -> truthy (Some path) = true ->
  nonzero (size (set_orientation env (imread env path) (new_display env))) ->
  (preview = true ->
   zip (map (load_cascade env) (map (model_path env) models))
       (random_colors env (length (map (model_path env) models))) <> []) ->
  hd (-1) ks = 27 ->
  let out := main env (Some s) (Some path) models preview ks in
  out.1.1 = Ok tt
  /\ count is_imread (trace out.2) = 1%nat
  /\ count is_show (trace out.2) = 1%nat
  /\ count is_wait (trace out.2) = 1%nat
  /\ count is_capture (trace out.2) = 0%nat
  /\ count is_read (trace out.2) = 0%nat
  /\ keys out.2 = tail ks
  /\ times_index out.1.2 = 0%nat /\ times out.1.2 = None.
Proof.
  intros Hs Htr Hnz Hp Hk out. subst out. unfold main.
  match goal with
  | |- context [start _ _ ?d0 ?w0] =>
    change (wp (start env preview)
              (fun r d' w' =>
                 r = Ok tt
                 /\ count is_imread (trace w') = 1%nat
                 /\ count is_show (trace w') = 1%nat
                 /\ count is_wait (trace w') = 1%nat
                 /\ count is_capture (trace w') = 0%nat
                 /\ count is_read (trace w') = 0%nat
                 /\ keys w' = tail ks
                 /\ times_index d' = 0%nat /\ times d' = None) d0 w0);
    set (d := d0)
  end.
  unfold start. wp_head. cbn [image __init__ d]. rewrite Htr. fold d.
  apply wp_bind. wp_head. apply wp_bind.
  match goal with |- wp _ _ _ ?w1 => set (w := w1) end.
  destruct (pass_camera_eq env (imread env path) preview s d w)
    as (rs & fp & rp & Heq).
  { by repeat split. }
  { by right. }
  unfold wp at 1. rewrite Heq. cbv beta iota.
  destruct (pass_object_fields env (imread env path) d w)
    as (_ & _ & Ht & Hi & _ & _).
  destruct ks as [| k ks]; [done |]. cbn [hd] in Hk. subst k.
  assert (Hkw : keys w = 27 :: ks) by done.
  assert (Htw : trace w = [EvImread path]) by done.
  assert (Hd : times_index d = 0%nat /\ times d = None) by done.
  clearbody w d.
  unfold wp, bind, waitKey, ret.
  cbn [keys add_events frame_time_logged pass_world clock trace fst snd].
  rewrite Hkw. cbn [Z.eqb Pos.eqb negb tail fst snd]. unfold wp, ret.
  cbn [fst snd keys trace]. rewrite Ht, Hi, Htw, !count_app, !count_one.
  rewrite !count_loop_events_quiet
    by first [apply quiet_is_show | apply quiet_is_read | apply quiet_is_wait
             | apply quiet_is_imread | apply quiet_is_capture].
  cbn [is_imread is_show is_wait is_capture is_read].
  destruct Hd as [-> ->]. by repeat split.
Qed.

Lemma image_run_ends_on_escape_witness :
  let out := main Sample.env (Some "0"%string) (Some "a.png"%string)
               ["face.xml"%string] true [27; 32] in
  out.1.1 = Ok tt
  /\ count is_imread (trace out.2) = 1%nat
  /\ count is_show (trace out.2) = 1%nat
  /\ count is_wait (trace out.2) = 1%nat
  /\ count is_capture (trace out.2) = 0%nat
  /\ count is_read (trace out.2) = 0%nat
  /\ keys out.2 = [32]
  /\ times_index out.1.2 = 0%nat /\ times out.1.2 = None.
Proof.
  intros out.
  assert (Hnz : nonzero (size (set_orientation Sample.env
                                 (imread Sample.env "a.png")
                                 (new_display Sample.env)))) by by vm_compute.
  assert (Hp : true = true ->
               zip (map (load_cascade Sample.env)
                      (map (model_path Sample.env) ["face.xml"%string]))
                   (random_colors Sample.env
                      (length (map (model_path Sample.env)
                                 ["face.xml"%string]))) <> [])
    by by vm_compute.
  exact (image_run_ends_on_escape Sample.env "0" "a.png" ["face.xml"%string]
           true [27; 32] eq_refl eq_refl Hnz Hp eq_refl).
Defined.

Lemma no_statistics_without_frame_count_witness :
  (forall arg, capture_arg (Some "0"%string) = Ok arg ->
               frames_number Sample.env arg <= 0)
  /\ count is_statistic
       (trace (main Sample.env (Some "0"%string) None ["face.xml"%string]
                 false [32; 27]).2) = 0%nat.
Proof.
  assert (HN : forall arg, capture_arg (Some "0"%string) = Ok arg ->
                           frames_number Sample.env arg <= 0).
  { intros arg H. vm_compute in H. injection H as <-. by vm_compute. }
  exact (conj HN (no_statistics_without_frame_count Sample.env
                    (Some "0"%string) None ["face.xml"%string] false [32; 27]
                    HN)).
Defined.

Lemma int_at_pair cb bound kind :
  pair_of cb bound kind
  = match int_at cb [bound; kind; "width"%string] with
    | Raise e => Raise e
    | Ok wd => match int_at cb [bound; kind; "height"%string] with
               | Raise e => Raise e
               | Ok ht => Ok (wd, ht)
               end
    end.
Proof. done. Qed.

(** X15: what the configuration module makes of an existing file.  The
    import succeeds exactly when the eight paths min/max, face/body,
    width/height lead to integers, and then the value holds, for each kind
    of object, the minimum and the maximum as (width, height) pairs, read
    from the path that starts with the bound: the document is keyed by
    bound first, the value by kind first.  Once the file exists the value
    is never the empty one: a document that lacks a path fails the
    import. *)
Theorem boundaries_come_from_the_document cb b :
  config_boundarys (Some cb) = Ok b <->
  exists fw fh Fw Fh bw bh Bw Bh,
    b = MinMax (fw, fh) (Fw, Fh) (bw, bh) (Bw, Bh)
    /\ int_at cb ["min"; "face"; "width"]%string = Ok fw
    /\ int_at cb ["min"; "face"; "height"]%string = Ok fh
    /\ int_at cb ["max"; "face"; "width"]%string = Ok Fw
    /\ int_at cb ["max"; "face"; "height"]%string = Ok Fh
    /\ int_at cb ["min"; "body"; "width"]%string = Ok bw
    /\ int_at cb ["min"; "body"; "height"]%string = Ok bh
    /\ int_at cb ["max"; "body"; "width"]%string = Ok Bw
    /\ int_at cb ["max"; "body"; "height"]%string = Ok Bh.
Proof.
  unfold config_boundarys. rewrite !int_at_pair. split.
  - intros H.
    destruct (int_at cb ["min"; "face"; "width"]%string) as [fw |]; [| done].
    destruct (int_at cb ["min"; "face"; "height"]%string) as [fh |]; [| done].
    destruct (int_at cb ["max"; "face"; "width"]%string) as [Fw |]; [| done].
    destruct (int_at cb ["max"; "face"; "height"]%string) as [Fh |]; [| done].
    destruct (int_at cb ["min"; "body"; "width"]%string) as [bw |]; [| done].
    destruct (int_at cb ["min"; "body"; "height"]%string) as [bh |]; [| done].
    destruct (int_at cb ["max"; "body"; "width"]%string) as [Bw |]; [| done].
    destruct (int_at cb ["max"; "body"; "height"]%string) as [Bh |]; [| done].
    injection H as <-. by exists fw, fh, Fw, Fh, bw, bh, Bw, Bh.
  - intros (fw & fh & Fw & Fh & bw & bh & Bw & Bh & -> & H).
    destruct H as (-> & -> & -> & -> & -> & -> & -> & ->). done.
Qed.

Lemma config_value_of_a_document cb b :
  config_boundarys (Some cb) = Ok b -> b <> NoBoundaries.
Proof.
  unfold config_boundarys.
  destruct (pair_of cb "min" "face"); [| done].
  destruct (pair_of cb "max" "face"); [| done].
  destruct (pair_of cb "min" "body"); [| done].
  destruct (pair_of cb "max" "body"); [| done].
  by intros [= <-].
Qed.

(** X16: the exception a defective document fails the import with is that
    of the first defect in the order of evaluation: a document that is not
    a mapping gives [TypeError], a mapping without the key min gives
    [KeyError], whatever the rest holds; and no document gives the empty
    value, which is kept for the missing file alone. *)
Theorem defective_document_fails_import (f : option Yaml) :
  (config_boundarys f = Ok NoBoundaries <-> f = None)
  /\ (forall r, f = Some (YScalar r) -> config_boundarys f = Raise TypeError)
  /\ (forall l, f = Some (YDict l) -> assoc "min" l = None ->
                config_boundarys f = Raise KeyError).
Proof.
  split; [| split].
  - split; [| by intros ->]. destruct f as [cb |]; [| done]. intros H.
    by apply config_value_of_a_document in H.
  - by intros r ->.
  - intros l -> Hl. unfold config_boundarys, pair_of, getitem. by rewrite Hl.
Qed.

Lemma defective_document_fails_import_witness :
  config_boundarys (Some (YDict (YCons "max" (YDict YNil) YNil)))
  = Raise KeyError.
Proof.
  exact (proj2 (proj2 (defective_document_fails_import
                         (Some (YDict (YCons "max" (YDict YNil) YNil)))))
           (YCons "max" (YDict YNil) YNil) eq_refl eq_refl).
Defined.

(** ** The status a run exits with *)





